(** * Enterprise DAB policy validator (validation/enterprise_dab_validator.py)

    A shallow embedding of [EnterpriseDabValidator] and [main].

    - Parsed YAML documents are [yval] trees.  A Python dict carries an
      object identity [oid]: two nodes with the same identity are the same
      dict object reached through a YAML anchor/alias, so a mutation through
      one is visible through the other.  Dict keys are strings.
    - A Python [str] is a [string] whose characters are the code points
      U+0000..U+00FF (Latin-1); [nat_of_ascii c] is the code point of [c].
    - Python exceptions are the [Raise] outcome of the [Exc] monad; an
      exception aborts the run, so the buckets written before it are dropped.
    - Findings are structured records carrying the data that the source
      renders into its f-string messages. *)

From Stdlib Require Import String Ascii List Bool ZArith Arith Lia.
Import ListNotations.

Set Warnings "-register-all".

Module Dab.

Open Scope list_scope.
Open Scope string_scope.

(** ** Values produced by [yaml.safe_load] *)

Inductive yval : Type :=
| YNull
| YBool (b : bool)
| YInt (z : Z)
| YStr (s : string)
| YList (items : list yval)
| YMap (oid : nat) (entries : list (string * yval)).

(** The [{}] literal used as a default by [dict.get]: a fresh dict object,
    never reachable from the parsed tree. *)
Definition fresh_dict : yval := YMap 0 [].

(** ** Exceptions *)

Inductive py_exc : Type := AttributeError | TypeError | ValueError.

Inductive Exc (A : Type) : Type :=
| Ok (a : A)
| Raise (e : py_exc).
Arguments Ok {A} a.
Arguments Raise {A} e.

Definition bind {A B} (m : Exc A) (k : A -> Exc B) : Exc B :=
  match m with Ok a => k a | Raise e => Raise e end.

Notation "x <- m ;; k" := (bind m (fun x => k))
  (at level 61, m at next level, right associativity).
Notation "' p <- m ;; k" := (bind m (fun x => match x with p => k end))
  (at level 61, p pattern, m at next level, right associativity).

(** ** Python dicts (insertion ordered) *)

Fixpoint dict_get (d : list (string * yval)) (k : string) : option yval :=
  match d with
  | [] => None
  | (k', v) :: d' => if String.eqb k k' then Some v else dict_get d' k
  end.

(** [d[k] = v]: overwrite in place, or append a new key. *)
Fixpoint dict_set (d : list (string * yval)) (k : string) (v : yval)
  : list (string * yval) :=
  match d with
  | [] => [(k, v)]
  | (k', v') :: d' =>
      if String.eqb k k' then (k', v) :: d' else (k', v') :: dict_set d' k v
  end.

Definition dict_update (d e : list (string * yval)) : list (string * yval) :=
  fold_left (fun acc kv => dict_set acc (fst kv) (snd kv)) e d.

Definition dict_keys (d : list (string * yval)) : list string := map fst d.

Definition mem (k : string) (l : list string) : bool := existsb (String.eqb k) l.

(** [o.get(k, dflt)] *)
Definition py_get (o : yval) (k : string) (dflt : yval) : Exc yval :=
  match o with
  | YMap _ d => Ok (match dict_get d k with Some v => v | None => dflt end)
  | _ => Raise AttributeError
  end.

(** [o.items()] *)
Definition py_items (o : yval) : Exc (list (string * yval)) :=
  match o with YMap _ d => Ok d | _ => Raise AttributeError end.

(** [o.keys()] *)
Definition py_keys (o : yval) : Exc (list string) :=
  match o with YMap _ d => Ok (dict_keys d) | _ => Raise AttributeError end.

Definition single (c : ascii) : string := String c EmptyString.

(** [for x in o]: a list yields its items, a dict its keys, a string its
    characters; None, bools and ints are not iterable. *)
Definition py_iter (o : yval) : Exc (list yval) :=
  match o with
  | YList l => Ok l
  | YMap _ d => Ok (map (fun kv => YStr (fst kv)) d)
  | YStr s => Ok (map (fun c => YStr (single c)) (list_ascii_of_string s))
  | _ => Raise TypeError
  end.

(** Python truthiness. *)
Definition py_truthy (o : yval) : bool :=
  match o with
  | YNull => false
  | YBool b => b
  | YInt z => negb (Z.eqb z 0)
  | YStr s => negb (String.eqb s EmptyString)
  | YList l => negb (Nat.eqb (length l) 0)
  | YMap _ d => negb (Nat.eqb (length d) 0)
  end.

(** [needle in hay] for strings. *)
Fixpoint contains (needle hay : string) : bool :=
  String.prefix needle hay ||
  match hay with EmptyString => false | String _ hay' => contains needle hay' end.

(** [needle in o] for a string [needle]: substring of a string, member of a
    list, key of a dict; other operands raise TypeError. *)
Definition py_in (needle : string) (o : yval) : Exc bool :=
  match o with
  | YStr s => Ok (contains needle s)
  | YList l =>
      Ok (existsb (fun x => match x with YStr s => String.eqb s needle | _ => false end) l)
  | YMap _ d => Ok (mem needle (dict_keys d))
  | _ => Raise TypeError
  end.

(** [o > 5]: bools compare as 0/1; None, strings and containers raise
    TypeError against an int. *)
Definition py_gt (o : yval) (n : Z) : Exc bool :=
  match o with
  | YInt z => Ok (Z.gtb z n)
  | YBool b => Ok (Z.gtb (if b then 1 else 0)%Z n)
  | _ => Raise TypeError
  end.

(** ** Decimal rendering *)

Fixpoint digits_aux (fuel n : nat) (acc : string) : string :=
  match fuel with
  | 0 => acc
  | S f =>
      let acc' := String (ascii_of_nat (48 + n mod 10)) acc in
      if Nat.ltb n 10 then acc' else digits_aux f (n / 10) acc'
  end.

Definition string_of_nat (n : nat) : string := digits_aux (S n) n EmptyString.

Definition string_of_Z (z : Z) : string :=
  if Z.ltb z 0 then "-" ++ string_of_nat (Z.to_nat (Z.opp z))
  else string_of_nat (Z.to_nat z).

(** ** Findings and the three severity buckets *)

Inductive finding : Type :=
| LoadFailed (file_path err : string)
| SensitiveHardcoded (path file value : string)
| JobNameNotCapitalized (job file : string)
| JobNameWithoutEnvironment (job : string)
| ClusterKeyNotLowercase (cluster_key : string)
| MissingRequiredTags (job file : string) (missing : list string)
| HardcodedSecret (file : string)
| NonStandardNotebookPath (notebook_path : yval) (job : string)
| MaxConcurrentExceeded (job : string) (max_concurrent : yval)
| ManyWorkers (job : string) (num_workers : yval)
| HardcodedNodeType (job : string)
| NoFailureNotification (job : string)
| NoTimeout (job : string)
| NoRetryOnTimeout (job : string)
| EnvVariableMissing (var_name : string) (missing_envs : list string).

Record buckets : Type := mk_buckets {
  errors : list finding;
  warnings : list finding;
  suggestions : list finding
}.

Definition empty_buckets : buckets := mk_buckets [] [] [].

Definition add_error (b : buckets) (f : finding) : buckets :=
  mk_buckets (errors b ++ [f]) (warnings b) (suggestions b).
Definition add_warning (b : buckets) (f : finding) : buckets :=
  mk_buckets (errors b) (warnings b ++ [f]) (suggestions b).
Definition add_suggestion (b : buckets) (f : finding) : buckets :=
  mk_buckets (errors b) (warnings b) (suggestions b ++ [f]).

(** [for x in l: body]; an exception aborts the loop. *)
Fixpoint for_each {A} (l : list A) (body : A -> buckets -> Exc buckets)
    (b : buckets) : Exc buckets :=
  match l with
  | [] => Ok b
  | x :: l' => b' <- body x b ;; for_each l' body b'
  end.

(** ** [load_yaml]

    The outcome of [open] + [yaml.safe_load] on a path: the parsed document
    or the text of the exception raised (missing file, syntax error, I/O). *)
Inductive load_result : Type :=
| Loaded (doc : yval)
| LoadError (err : string).

Definition load_yaml (file_path : string) (ld : load_result) (b : buckets)
  : yval * buckets :=
  match ld with
  | Loaded v => (if py_truthy v then v else fresh_dict, b)
  | LoadError e => (fresh_dict, add_error b (LoadFailed file_path e))
  end.

(** ** [check_variable_usage_policy] *)

Definition sensitive_fields : list string :=
  ["existing_cluster_id"; "instance_pool_id"; "warehouse_id";
   "catalog"; "schema"; "volume"; "storage_location"].

(** [f"{path}.{key}" if path else key] *)
Definition child_path (path key : string) : string :=
  if String.eqb path EmptyString then key else path ++ "." ++ key.

Definition index_path (path : string) (i : nat) : string :=
  path ++ "[" ++ string_of_nat i ++ "]".

(** The findings [check_object] appends, in order: the inner [fix]es
    are the loop over [obj.items()] and the loop over [enumerate(obj)]. *)
Fixpoint check_object (file_path : string) (obj : yval) (path : string)
  : list finding :=
  match obj with
  | YMap _ d =>
      (fix entries (d : list (string * yval)) : list finding :=
         match d with
         | [] => []
         | (key, value) :: d' =>
             let current_path := child_path path key in
             ((if mem key sensitive_fields then
                 match value with
                 | YStr s =>
                     if String.prefix "${" s then []
                     else [SensitiveHardcoded current_path file_path s]
                 | _ => []
                 end
               else [])
              ++ check_object file_path value current_path
              ++ entries d')%list
         end) d
  | YList l =>
      (fix items (i : nat) (l : list yval) : list finding :=
         match l with
         | [] => []
         | item :: l' =>
             (check_object file_path item (index_path path i)
              ++ items (S i) l')%list
         end) 0 l
  | _ => []
  end.

Definition check_variable_usage_policy (job_config : yval) (file_path : string)
    (b : buckets) : buckets :=
  mk_buckets (errors b ++ check_object file_path job_config EmptyString)
             (warnings b) (suggestions b).

(** ** Characters and the two anchored regular expressions *)

Definition in_range (lo hi : nat) (c : ascii) : bool :=
  Nat.leb lo (nat_of_ascii c) && Nat.leb (nat_of_ascii c) hi.
Definition is_upper : ascii -> bool := in_range 65 90.
Definition is_lower : ascii -> bool := in_range 97 122.
Definition is_digit : ascii -> bool := in_range 48 57.
Definition is_underscore (c : ascii) : bool := Nat.eqb (nat_of_ascii c) 95.

(** [re.match(r'^[A-Z][a-zA-Z0-9_]*', s)]: the starred class may match the
    empty string, so only the first character matters. *)
Definition job_name_ok (s : string) : bool :=
  match s with String c _ => is_upper c | EmptyString => false end.

(** [re.match(r'^[a-z][a-z0-9_]*$', s)]; [$] also matches just before a
    final newline. *)
Definition cluster_key_char (c : ascii) : bool :=
  is_lower c || is_digit c || is_underscore c.

Definition cluster_key_ok (s : string) : bool :=
  match list_ascii_of_string s with
  | c :: r =>
      is_lower c &&
      (forallb cluster_key_char r ||
       match rev r with
       | nl :: r' => Nat.eqb (nat_of_ascii nl) 10 && forallb cluster_key_char r'
       | [] => false
       end)
  | [] => false
  end.

(** [re.match] on a non-string raises TypeError. *)
Definition py_match_cluster_key (o : yval) : Exc bool :=
  match o with YStr s => Ok (cluster_key_ok s) | _ => Raise TypeError end.

(** ** [str()] and [repr()] *)

Definition dquote : ascii := ascii_of_nat 34.
Definition squote : ascii := ascii_of_nat 39.
Definition backslash : ascii := ascii_of_nat 92.

Definition hex_digit (n : nat) : ascii :=
  match String.get n "0123456789abcdef" with Some c => c | None => "0"%char end.

Definition repr_char (q c : ascii) : string :=
  let n := nat_of_ascii c in
  if Nat.eqb n 92 then String backslash (single backslash)
  else if Ascii.eqb c q then String backslash (single q)
  else if Nat.eqb n 10 then String backslash "n"
  else if Nat.eqb n 13 then String backslash "r"
  else if Nat.eqb n 9 then String backslash "t"
  else if Nat.ltb n 32 || in_range 127 160 c || Nat.eqb n 173 then
    String backslash (String "x" (String (hex_digit (n / 16)) (single (hex_digit (n mod 16)))))
  else single c.

(** Python's [repr] of a str: single quotes unless the text contains a
    single quote and no double quote. *)
Definition repr_str (s : string) : string :=
  let cs := list_ascii_of_string s in
  let q := if existsb (Ascii.eqb squote) cs && negb (existsb (Ascii.eqb dquote) cs)
           then dquote else squote in
  single q ++ String.concat EmptyString (map (repr_char q) cs) ++ single q.

Fixpoint py_repr (v : yval) : string :=
  match v with
  | YNull => "None"
  | YBool true => "True"
  | YBool false => "False"
  | YInt z => string_of_Z z
  | YStr s => repr_str s
  | YList l => "[" ++ String.concat ", " (map py_repr l) ++ "]"
  | YMap _ d =>
      "{" ++ String.concat ", " (map (fun kv => repr_str (fst kv) ++ ": " ++ py_repr (snd kv)) d)
      ++ "}"
  end.

Definition py_str (v : yval) : string :=
  match v with YStr s => s | _ => py_repr v end.

(** ** [check_naming_conventions] *)

Definition jobs_of (job_config : yval) : Exc (list (string * yval)) :=
  resources <- py_get job_config "resources" fresh_dict ;;
  jobs <- py_get resources "jobs" fresh_dict ;;
  py_items jobs.

Definition check_naming_conventions (job_config : yval) (file_path : string)
    (b : buckets) : Exc buckets :=
  jobs <- jobs_of job_config ;;
  for_each jobs (fun job b =>
    let (job_name, job_def) := job in
    let b := if job_name_ok job_name then b
             else add_warning b (JobNameNotCapitalized job_name file_path) in
    name <- py_get job_def "name" (YStr EmptyString) ;;
    let b := if contains "${bundle.environment}" (py_str name) then b
             else add_warning b (JobNameWithoutEnvironment job_name) in
    clusters_v <- py_get job_def "job_clusters" (YList []) ;;
    clusters <- py_iter clusters_v ;;
    for_each clusters (fun cluster b =>
      cluster_key <- py_get cluster "job_cluster_key" (YStr EmptyString) ;;
      if py_truthy cluster_key then
        ok <- py_match_cluster_key cluster_key ;;
        Ok (if ok then b else add_warning b (ClusterKeyNotLowercase (py_str cluster_key)))
      else Ok b) b) b.

(** ** [check_required_tags]

    [tags.update(cluster_tags)] mutates the job's own [tags] dict when the
    job has one; the default [{}] is a fresh dict.  A mutation of the dict
    object [i] is written to every node with that identity: in the whole
    tree, in the jobs still to be visited and in the clusters still to be
    visited. *)

Fixpoint set_dict (i : nat) (c : list (string * yval)) (t : yval) : yval :=
  match t with
  | YMap j d =>
      if Nat.eqb i j then YMap j c
      else YMap j (map (fun kv => (fst kv, set_dict i c (snd kv))) d)
  | YList l => YList (map (set_dict i c) l)
  | _ => t
  end.

Definition set_dict_entries (i : nat) (c : list (string * yval))
    (d : list (string * yval)) : list (string * yval) :=
  map (fun kv => (fst kv, set_dict i c (snd kv))) d.

(** One element of the iterable given to [dict.update]: a pair.  Keys are
    strings in this model; a pair whose key is not a string is modelled as
    TypeError. *)
Definition update_pair (o : yval) : Exc (string * yval) :=
  match o with
  | YList [YStr k; v] => Ok (k, v)
  | YList [_; _] => Raise TypeError
  | YList _ => Raise ValueError
  | YStr s =>
      match list_ascii_of_string s with
      | [c1; c2] => Ok (single c1, YStr (single c2))
      | _ => Raise ValueError
      end
  | YMap _ [(k1, _); (k2, _)] => Ok (k1, YStr k2)
  | YMap _ _ => Raise ValueError
  | _ => Raise TypeError
  end.

Fixpoint map_exc {A B} (f : A -> Exc B) (l : list A) : Exc (list B) :=
  match l with
  | [] => Ok []
  | x :: l' => y <- f x ;; ys <- map_exc f l' ;; Ok (y :: ys)
  end.

(** [tags.update(arg)]: [tags] must be a dict (AttributeError); [arg] is a
    dict or an iterable of pairs.  Returns the dict's identity and its new
    content. *)
Definition py_dict_update (tags arg : yval) : Exc (nat * list (string * yval)) :=
  match tags with
  | YMap i d =>
      match arg with
      | YMap _ e => Ok (i, dict_update d e)
      | YNull | YBool _ | YInt _ => Raise TypeError
      | _ =>
          items <- py_iter arg ;;
          pairs <- map_exc update_pair items ;;
          Ok (i, dict_update d pairs)
      end
  | _ => Raise AttributeError
  end.

(** The loop over [job_def.get("job_clusters", [])].  State: the job's tags
    dict, the clusters still to visit, the whole tree, the jobs still to
    visit.  [n] counts the clusters still to visit (rewriting keeps the
    length), so the recursion is structural. *)
Fixpoint merge_cluster_tags (n : nat) (present : bool) (tags : yval)
    (clusters : list yval) (tree : yval) (rest : list (string * yval))
  : Exc (yval * yval * list (string * yval)) :=
  match n, clusters with
  | S n', cluster :: clusters' =>
      new_cluster <- py_get cluster "new_cluster" fresh_dict ;;
      cluster_tags <- py_get new_cluster "custom_tags" fresh_dict ;;
      '(i, c) <- py_dict_update tags cluster_tags ;;
      if present then
        merge_cluster_tags n' present (YMap i c) (map (set_dict i c) clusters')
          (set_dict i c tree) (set_dict_entries i c rest)
      else merge_cluster_tags n' present (YMap i c) clusters' tree rest
  | _, _ => Ok (tags, tree, rest)
  end.

Definition required_tags : list string := ["cost_center"; "environment"; "team"].

(** [self.required_tags - set(tags.keys())], listed in the order of
    [required_tags]. *)
Definition missing_tags (present_keys : list string) : list string :=
  filter (fun t => negb (mem t present_keys)) required_tags.

(** The loop over [jobs.items()]; [n] counts the jobs still to visit. *)
Fixpoint required_tags_loop (n : nat) (file_path : string)
    (jobs : list (string * yval)) (tree : yval) (b : buckets)
  : Exc (yval * buckets) :=
  match n, jobs with
  | S n', (job_name, job_def) :: rest =>
      tags_opt <- (match job_def with
                   | YMap _ d => Ok (dict_get d "tags")
                   | _ => Raise AttributeError
                   end) ;;
      let present := match tags_opt with Some _ => true | None => false end in
      let tags := match tags_opt with Some t => t | None => fresh_dict end in
      clusters_v <- py_get job_def "job_clusters" (YList []) ;;
      clusters <- py_iter clusters_v ;;
      '(tags', tree', rest') <-
        merge_cluster_tags (length clusters) present tags clusters tree rest ;;
      keys <- py_keys tags' ;;
      let missing := missing_tags keys in
      let b := match missing with
               | [] => b
               | _ => add_error b (MissingRequiredTags job_name file_path missing)
               end in
      required_tags_loop n' file_path rest' tree' b
  | _, _ => Ok (tree, b)
  end.

(** Returns the (possibly mutated) tree along with the buckets. *)
Definition check_required_tags (job_config : yval) (file_path : string)
    (b : buckets) : Exc (yval * buckets) :=
  jobs <- jobs_of job_config ;;
  required_tags_loop (length jobs) file_path jobs job_config b.

(** ** [yaml.dump] (PyYAML, default block style, [sort_keys=True])

    Library code outside this repository, modelled from PyYAML's emitter:
    block mappings indented by 2, sequences inside a mapping not indented,
    [{}]/[[]] for empty collections, keys sorted.  A string is emitted plain
    when it is non-empty printable ASCII, does not start with an indicator
    character or a space, has no [": "] or [" #"], does not end with a space
    or [':'] and would not be read back as a bool, null, int or float;
    otherwise single-quoted (printable) or double-quoted.  The plain test is
    conservative (it quotes some strings PyYAML emits plain); shared nodes
    are emitted unfolded rather than as anchors, and long lines are not
    folded. *)

Definition nl : string := single (ascii_of_nat 10).

Fixpoint spaces (n : nat) : string :=
  match n with 0 => EmptyString | S n' => String " " (spaces n') end.

Definition printable (c : ascii) : bool := in_range 32 126 c.

Definition mem_char (c : ascii) (s : string) : bool :=
  existsb (Ascii.eqb c) (list_ascii_of_string s).

Definition indicator_first (c : ascii) : bool :=
  mem_char c "-?:,[]{}#&*!|>%@` " || Ascii.eqb c squote || Ascii.eqb c dquote.

Definition resolves_implicitly (s : string) : bool :=
  let cs := list_ascii_of_string s in
  mem s ["yes"; "Yes"; "YES"; "no"; "No"; "NO"; "true"; "True"; "TRUE";
         "false"; "False"; "FALSE"; "on"; "On"; "ON"; "off"; "Off"; "OFF";
         "null"; "Null"; "NULL"; "~"; "="; "<<";
         ".inf"; ".Inf"; ".INF"; "+.inf"; "+.Inf"; "+.INF";
         "-.inf"; "-.Inf"; "-.INF"; ".nan"; ".NaN"; ".NAN"]
  || (existsb is_digit cs &&
      forallb (fun c => mem_char c "0123456789_+-.:eExXoObBabcdfABCDF") cs).

Definition last_char (s : string) : option ascii :=
  match rev (list_ascii_of_string s) with c :: _ => Some c | [] => None end.

Definition plain_ok (s : string) : bool :=
  match list_ascii_of_string s with
  | [] => false
  | c0 :: _ =>
      forallb printable (list_ascii_of_string s)
      && negb (indicator_first c0)
      && negb (match last_char s with
               | Some c => Ascii.eqb c " "%char || Ascii.eqb c ":"%char
               | None => false end)
      && negb (contains ": " s) && negb (contains " #" s)
      && negb (String.prefix "---" s) && negb (String.prefix "..." s)
      && negb (resolves_implicitly s)
  end.

Definition sq_char (c : ascii) : string :=
  if Ascii.eqb c squote then String squote (single squote) else single c.

Definition dq_char (c : ascii) : string :=
  let n := nat_of_ascii c in
  if Nat.eqb n 92 then String backslash (single backslash)
  else if Nat.eqb n 34 then String backslash (single dquote)
  else if Nat.eqb n 10 then String backslash "n"
  else if Nat.eqb n 9 then String backslash "t"
  else if Nat.eqb n 13 then String backslash "r"
  else if Nat.ltb n 32 || Nat.eqb n 127 then
    String backslash (String "x" (String (hex_digit (n / 16)) (single (hex_digit (n mod 16)))))
  else single c.

Definition str_text (s : string) : string :=
  let cs := list_ascii_of_string s in
  if plain_ok s then s
  else if forallb printable cs then
    single squote ++ String.concat EmptyString (map sq_char cs) ++ single squote
  else single dquote ++ String.concat EmptyString (map dq_char cs) ++ single dquote.

Definition scalar_text (v : yval) : string :=
  match v with
  | YNull => "null"
  | YBool true => "true"
  | YBool false => "false"
  | YInt z => string_of_Z z
  | YStr s => str_text s
  | _ => EmptyString
  end.

Fixpoint str_ltb (a b : string) : bool :=
  match a, b with
  | EmptyString, String _ _ => true
  | EmptyString, EmptyString => false
  | String _ _, EmptyString => false
  | String c a', String d b' =>
      if Ascii.eqb c d then str_ltb a' b' else Nat.ltb (nat_of_ascii c) (nat_of_ascii d)
  end.

Fixpoint insert_sorted {A} (x : string * A) (l : list (string * A)) : list (string * A) :=
  match l with
  | [] => [x]
  | y :: l' => if str_ltb (fst x) (fst y) then x :: l else y :: insert_sorted x l'
  end.

Definition sort_keys {A} (l : list (string * A)) : list (string * A) :=
  fold_right insert_sorted [] l.

(** Block mapping at indentation [ind]; the first line starts with [first]
    instead of the indentation. *)
Definition block_map (es : list (string * (nat -> string))) (ind : nat)
    (first : string) : string :=
  match sort_keys es with
  | [] => EmptyString
  | (k, f) :: r =>
      first ++ str_text k ++ ":" ++ f ind ++
      String.concat EmptyString (map (fun kf => spaces ind ++ str_text (fst kf) ++ ":" ++ snd kf ind) r)
  end.

Definition block_seq (its : list (nat -> string)) (ind : nat) (first : string) : string :=
  match its with
  | [] => EmptyString
  | f :: r =>
      first ++ "-" ++ f ind ++
      String.concat EmptyString (map (fun g => spaces ind ++ "-" ++ g ind) r)
  end.

(** For a node: the text after ["key:"] of a mapping entry at indentation
    [ind], and the text after ["-"] of a sequence item at indentation [ind]. *)
Fixpoint dump_parts (v : yval) : (nat -> string) * (nat -> string) :=
  match v with
  | YMap _ [] => (fun _ => " {}" ++ nl, fun _ => " {}" ++ nl)
  | YList [] => (fun _ => " []" ++ nl, fun _ => " []" ++ nl)
  | YMap _ d =>
      let es := map (fun kv => (fst kv, fst (dump_parts (snd kv)))) d in
      (fun ind => nl ++ block_map es (ind + 2) (spaces (ind + 2)),
       fun ind => " " ++ block_map es (ind + 2) EmptyString)
  | YList l =>
      let its := map (fun x => snd (dump_parts x)) l in
      (fun ind => nl ++ block_seq its ind (spaces ind),
       fun ind => " " ++ block_seq its (ind + 2) EmptyString)
  | _ => (fun _ => " " ++ scalar_text v ++ nl, fun _ => " " ++ scalar_text v ++ nl)
  end.

Definition yaml_dump (v : yval) : string :=
  match v with
  | YMap _ [] => "{}" ++ nl
  | YList [] => "[]" ++ nl
  | YMap _ d => block_map (map (fun kv => (fst kv, fst (dump_parts (snd kv)))) d) 0 EmptyString
  | YList l => block_seq (map (fun x => snd (dump_parts x)) l) 0 EmptyString
  | YStr s => if plain_ok s then s ++ nl ++ "..." ++ nl else str_text s ++ nl
  | _ => scalar_text v ++ nl ++ "..." ++ nl
  end.

(** ** The four secret patterns

    [re.search(pattern, text, re.IGNORECASE)] where the pattern is the word,
    an optional [s], [\s*], one of [:=], [\s*], a quote (single or double),
    one or more non-quote characters and a quote.
    Every repetition in the pattern is followed by a character its class
    excludes, so a greedy left-to-right match without backtracking decides
    it.  [\s] is Python's ASCII whitespace (including \x1c-\x1f). *)

Definition is_py_space (c : ascii) : bool := in_range 9 13 c || in_range 28 32 c.

Definition lower (c : ascii) : ascii :=
  if is_upper c then ascii_of_nat (nat_of_ascii c + 32) else c.

Definition is_quote (c : ascii) : bool := Ascii.eqb c squote || Ascii.eqb c dquote.

Fixpoint match_word (w s : list ascii) : option (list ascii) :=
  match w, s with
  | [], _ => Some s
  | c :: w', d :: s' => if Ascii.eqb (lower d) c then match_word w' s' else None
  | _ :: _, [] => None
  end.

Fixpoint skip_spaces (s : list ascii) : list ascii :=
  match s with c :: s' => if is_py_space c then skip_spaces s' else s | [] => [] end.

Definition secret_at (word : string) (s : list ascii) : bool :=
  match match_word (list_ascii_of_string word) s with
  | None => false
  | Some r =>
      let r := match r with
               | c :: r' => if Ascii.eqb (lower c) "s"%char then r' else r
               | [] => r
               end in
      match skip_spaces r with
      | c :: r' =>
          (Ascii.eqb c ":"%char || Ascii.eqb c "="%char) &&
          match skip_spaces r' with
          | q :: r'' =>
              is_quote q &&
              match r'' with
              | d :: _ => negb (is_quote d) && existsb is_quote r''
              | [] => false
              end
          | [] => false
          end
      | [] => false
      end
  end.

Fixpoint secret_search (word : string) (s : list ascii) : bool :=
  secret_at word s || match s with [] => false | _ :: s' => secret_search word s' end.

Definition security_patterns : list string := ["password"; "secret"; "token"; "key"].

(** ** [check_security_compliance] *)

Definition check_security_compliance (job_config : yval) (file_path : string)
    (b : buckets) : Exc buckets :=
  let job_str := list_ascii_of_string (yaml_dump job_config) in
  let b := fold_left (fun b w => if secret_search w job_str
                                 then add_error b (HardcodedSecret file_path) else b)
                     security_patterns b in
  jobs <- jobs_of job_config ;;
  for_each jobs (fun job b =>
    let (job_name, job_def) := job in
    tasks_v <- py_get job_def "tasks" (YList []) ;;
    tasks <- py_iter tasks_v ;;
    b <- for_each tasks (fun task b =>
      notebook_task <- py_get task "notebook_task" fresh_dict ;;
      notebook_path <- py_get notebook_task "notebook_path" (YStr EmptyString) ;;
      in_tmp <- py_in "/tmp/" notebook_path ;;
      flagged <- (if in_tmp then Ok true else py_in "/personal/" notebook_path) ;;
      Ok (if flagged then add_warning b (NonStandardNotebookPath notebook_path job_name)
          else b)) b ;;
    max_concurrent <- py_get job_def "max_concurrent_runs" (YInt 1) ;;
    over <- py_gt max_concurrent 5 ;;
    Ok (if over then add_warning b (MaxConcurrentExceeded job_name max_concurrent)
        else b)) b.

(** ** [check_cost_optimization] *)

(** [c.isdigit()] below U+0100: the ASCII digits and the superscripts
    U+00B2, U+00B3 and U+00B9. *)
Definition py_isdigit_char (c : ascii) : bool :=
  is_digit c || Nat.eqb (nat_of_ascii c) 178 || Nat.eqb (nat_of_ascii c) 179
  || Nat.eqb (nat_of_ascii c) 185.

(** [s.isdigit()] *)
Definition digit_string (s : string) : bool :=
  match s with
  | EmptyString => false
  | _ => forallb py_isdigit_char (list_ascii_of_string s)
  end.

Definition Z_of_digits (s : string) : Z :=
  fold_left (fun acc c => (acc * 10 + Z.of_nat (nat_of_ascii c - 48))%Z)
            (list_ascii_of_string s) 0%Z.

(** [int(s)] for a string of [isdigit] characters: [int] converts decimal
    digits only (below U+0100 the ASCII ones), so a superscript digit
    raises ValueError. *)
Definition py_int_digits (s : string) : Exc Z :=
  if forallb is_digit (list_ascii_of_string s) then Ok (Z_of_digits s)
  else Raise ValueError.

(** [isinstance(n, (int, str)) and str(n).isdigit()] and then
    [int(n) > 10]; a bool is an int. *)
Definition workers_over_10 (n : yval) : Exc bool :=
  match n with
  | YInt z => if digit_string (string_of_Z z) then Ok (Z.gtb z 10) else Ok false
  | YBool bv =>
      if digit_string (py_str n) then Ok (Z.gtb (if bv then 1 else 0)%Z 10) else Ok false
  | YStr s => if digit_string s then (z <- py_int_digits s ;; Ok (Z.gtb z 10)) else Ok false
  | _ => Ok false
  end.

Definition check_cost_optimization (job_config : yval) (file_path : string)
    (b : buckets) : Exc buckets :=
  jobs <- jobs_of job_config ;;
  for_each jobs (fun job b =>
    let (job_name, job_def) := job in
    clusters_v <- py_get job_def "job_clusters" (YList []) ;;
    clusters <- py_iter clusters_v ;;
    for_each clusters (fun cluster b =>
      new_cluster <- py_get cluster "new_cluster" fresh_dict ;;
      num_workers <- py_get new_cluster "num_workers" YNull ;;
      over <- workers_over_10 num_workers ;;
      let b := if over then add_suggestion b (ManyWorkers job_name num_workers) else b in
      node_type <- py_get new_cluster "node_type_id" YNull ;;
      Ok (match node_type with
          | YStr s => if String.prefix "${" s then b
                      else add_suggestion b (HardcodedNodeType job_name)
          | _ => b
          end)) b) b.

(** ** [check_best_practices] *)

Definition check_best_practices (job_config : yval) (file_path : string)
    (b : buckets) : Exc buckets :=
  jobs <- jobs_of job_config ;;
  for_each jobs (fun job b =>
    let (job_name, job_def) := job in
    email_notifications <- py_get job_def "email_notifications" fresh_dict ;;
    on_failure <- py_get email_notifications "on_failure" YNull ;;
    let b := if py_truthy on_failure then b
             else add_suggestion b (NoFailureNotification job_name) in
    has_timeout <- py_in "timeout_seconds" job_def ;;
    let b := if has_timeout then b else add_suggestion b (NoTimeout job_name) in
    has_retry <- py_in "retry_on_timeout" job_def ;;
    Ok (if has_retry then b else add_suggestion b (NoRetryOnTimeout job_name))) b.

(** ** [validate_job_file] *)

(** The six evaluators in the order of [validate_job_file]; returns the
    tree as the evaluators leave it. *)
Definition run_checks (job_config : yval) (file_path : string) (b : buckets)
  : Exc (yval * buckets) :=
  let b := check_variable_usage_policy job_config file_path b in
  b <- check_naming_conventions job_config file_path b ;;
  '(job_config', b) <- check_required_tags job_config file_path b ;;
  b <- check_security_compliance job_config' file_path b ;;
  b <- check_cost_optimization job_config' file_path b ;;
  b <- check_best_practices job_config' file_path b ;;
  Ok (job_config', b).

(** A discovered job file: its path, its path relative to the project, and
    what opening and parsing it gives. *)
Record job_file : Type := mk_job_file {
  jf_path : string;
  jf_relative : string;
  jf_load : load_result
}.

Definition validate_job_file (jf : job_file) (b : buckets) : Exc buckets :=
  let (job_config, b) := load_yaml (jf_path jf) (jf_load jf) b in
  if negb (py_truthy job_config) then Ok b
  else '(_, b) <- run_checks job_config (jf_relative jf) b ;; Ok b.

(** ** [extract_environment_variables] and [validate_environment_consistency] *)

Fixpoint fold_exc {A B} (f : A -> B -> Exc A) (l : list B) (a : A) : Exc A :=
  match l with
  | [] => Ok a
  | x :: l' => a' <- f a x ;; fold_exc f l' a'
  end.

(** [{**g, **t}]: both operands must be mappings (TypeError otherwise). *)
Definition py_merge (g t : yval) : Exc (list (string * yval)) :=
  match g, t with
  | YMap _ gd, YMap _ td => Ok (dict_update (dict_update [] gd) td)
  | _, _ => Raise TypeError
  end.

Definition extract_environment_variables (bundle_path : string) (ld : load_result)
    (b : buckets) : Exc (list (string * yval) * buckets) :=
  let (config, b) := load_yaml bundle_path ld b in
  if negb (py_truthy config) then Ok ([], b) else
  global_variables <- py_get config "variables" fresh_dict ;;
  targets <- py_get config "targets" fresh_dict ;;
  items <- py_items targets ;;
  env_variables <-
    fold_exc (fun (env : list (string * yval)) (target : string * yval) =>
                let (target_name, target_config) := target in
                target_variables <- py_get target_config "variables" fresh_dict ;;
                merged <- py_merge global_variables target_variables ;;
                Ok (dict_set env target_name (YMap 0 merged)))
             items [] ;;
  let env_variables :=
    match env_variables with
    | [] => if py_truthy global_variables then [("global", global_variables)] else []
    | _ => env_variables
    end in
  Ok (env_variables, b).

(** [set_order l] is the iteration order of the Python set built from the
    names [l] (CPython's order depends on string hashes). *)
Definition validate_environment_consistency (set_order : list string -> list string)
    (bundle_path : string) (ld : load_result) (b : buckets) : Exc buckets :=
  '(env_variables, b) <- extract_environment_variables bundle_path ld b ;;
  if Nat.ltb (length env_variables) 2 then Ok b else
  key_lists <- map_exc (fun env => py_keys (snd env)) env_variables ;;
  let all_var_names := set_order (concat key_lists) in
  for_each all_var_names (fun var_name b =>
    missing_envs <-
      fold_exc (fun (acc : list string) (env : string * yval) =>
                  present <- py_in var_name (snd env) ;;
                  Ok (if present then acc else (acc ++ [fst env])%list))
               env_variables [] ;;
    Ok (match missing_envs with
        | [] => b
        | _ => add_warning b (EnvVariableMissing var_name missing_envs)
        end)) b.

(** ** [validate] and the exit status of [main] *)

(** [bundle] is what loading [databricks.yml] gives (a [LoadError] when the
    file is absent); [job_files] are the files found under [resources/]
    (none when the directory does not exist). *)
Definition validate (set_order : list string -> list string) (bundle_path : string)
    (bundle : load_result) (job_files : list job_file) : Exc buckets :=
  b <- validate_environment_consistency set_order bundle_path bundle empty_buckets ;;
  for_each job_files validate_job_file b.

(** [len(self.errors) == 0] *)
Definition validate_ok (b : buckets) : bool := Nat.eqb (length (errors b)) 0.

(** [if not is_valid or (args.strict and validator.warnings): sys.exit(1)];
    otherwise [main] returns and the status is 0.  An exception escaping
    [validate] ends the interpreter with status 1. *)
Definition exit_code (strict : bool) (outcome : Exc buckets) : Z :=
  match outcome with
  | Raise _ => 1%Z
  | Ok b =>
      if negb (validate_ok b) || (strict && negb (Nat.eqb (length (warnings b)) 0))
      then 1%Z else 0%Z
  end.

End Dab.

(** * Properties *)

(** ** The variable-usage policy, restated over step paths

    The policy as a reader states it: a tree has a list of mapping entries,
    each reached from the root by a path of steps (a mapping key or a
    sequence index), listed in document order; an entry whose key is one of
    the seven sensitive fields and whose value is a string that does not
    start with [${] is one violation, reported with the rendered path. *)

Module Paths.
Import Dab.
Open Scope string_scope.
Open Scope list_scope.

Inductive step : Type := SKey (k : string) | SIdx (i : nat).

(** A key step appends [.key] (just [key] at the root); an index step
    appends [[i]]. *)
Definition render_step (acc : string) (s : step) : string :=
  match s with
  | SKey k => if String.eqb acc EmptyString then k else acc ++ "." ++ k
  | SIdx i => acc ++ "[" ++ string_of_nat i ++ "]"
  end.

Fixpoint render_from (acc : string) (p : list step) : string :=
  match p with
  | [] => acc
  | s :: p' => render_from (render_step acc s) p'
  end.

Definition render (p : list step) : string := render_from EmptyString p.

Definition entry : Type := (list step * string * yval)%type.

Definition under (s : step) (e : entry) : entry :=
  let '(p, k, v) := e in (s :: p, k, v).

(** Every mapping entry of the tree, in document order, with its path. *)
Fixpoint entries (t : yval) : list entry :=
  match t with
  | YMap _ d =>
      (fix go (d : list (string * yval)) : list entry :=
         match d with
         | [] => []
         | (k, v) :: d' =>
             ([SKey k], k, v) :: map (under (SKey k)) (entries v) ++ go d'
         end) d
  | YList l =>
      (fix go (i : nat) (l : list yval) : list entry :=
         match l with
         | [] => []
         | x :: l' => map (under (SIdx i)) (entries x) ++ go (S i) l'
         end) 0 l
  | _ => []
  end.

Definition sensitive_set : list string :=
  ["existing_cluster_id"; "instance_pool_id"; "warehouse_id";
   "catalog"; "schema"; "volume"; "storage_location"].

(** The finding an entry gives, its path rendered after the prefix [acc]. *)
Definition violation_at (acc file : string) (e : entry) : list finding :=
  let '(p, k, v) := e in
  if mem k sensitive_set then
    match v with
    | YStr s =>
        if String.prefix "${" s then []
        else [SensitiveHardcoded (render_from acc p) file s]
    | _ => []
    end
  else [].

Definition violation (file : string) : entry -> list finding :=
  violation_at EmptyString file.

(** The sequence loops of [check_object] and [entries], from index [i]. *)
Definition check_items (file path : string) :=
  fix items (i : nat) (l : list yval) : list finding :=
    match l with
    | [] => []
    | item :: l' =>
        (check_object file item (index_path path i) ++ items (S i) l')%list
    end.

Definition entries_items :=
  fix go (i : nat) (l : list yval) : list entry :=
    match l with
    | [] => []
    | x :: l' => map (under (SIdx i)) (entries x) ++ go (S i) l'
    end.

End Paths.

(** ** Cross-environment consistency, restated

    Given the environments (a name and its merged variable mapping, in
    target order): a variable is missing from the environments whose
    mapping lacks it; the union of the names is every key of every
    environment; a variable gives one warning listing where it is missing,
    or nothing when it is everywhere. *)

Module Envs.
Import Dab.
Open Scope string_scope.
Open Scope list_scope.

Definition is_map (v : yval) : bool :=
  match v with YMap _ _ => true | _ => false end.

Definition env_var_names (env_vars : yval) : list string :=
  match env_vars with YMap _ d => dict_keys d | _ => [] end.

Definition has_var (var : string) (env_vars : yval) : bool :=
  mem var (env_var_names env_vars).

Definition missing_in (var : string) (envs : list (string * yval)) : list string :=
  map fst (filter (fun env => negb (has_var var (snd env))) envs).

Definition all_names (envs : list (string * yval)) : list string :=
  concat (map (fun env => env_var_names (snd env)) envs).

Definition warning_for (envs : list (string * yval)) (var : string) : list finding :=
  match missing_in var envs with
  | [] => []
  | ms => [EnvVariableMissing var ms]
  end.

(** The finding names the variable [var]. *)
Definition names_var (var : string) (f : finding) : bool :=
  match f with EnvVariableMissing v _ => String.eqb v var | _ => false end.

End Envs.

(** ** The shape the bundle schema gives a job file

    What [databricks bundle validate] guarantees about the parts of a job
    file the evaluators inspect: the document, [resources], [jobs], each job
    and each of its [job_clusters], [new_cluster], [tasks] and
    [notebook_task] are mappings (clusters and tasks in sequences);
    [job_cluster_key] and [notebook_path] are strings; [max_concurrent_runs]
    is an integer; [num_workers], when a string (a variable reference), is
    ASCII text; [tags], [custom_tags] and [email_notifications] are
    mappings.  A key may be absent.  Mapping keys are strings, the only
    keys [yval] has (YAML keys such as [yes], [null] or [2024] load as a
    bool, None or an int, on which [re.match] raises). 

    [content_oids] lists the identities of the mappings whose entries the
    evaluators read (the document, [resources], [jobs], the jobs, clusters,
    [new_cluster]s, tasks and [notebook_task]s); [tag_oids] the identities
    of the jobs' [tags] mappings. *)

Module Shape.
Import Dab.
Open Scope string_scope.
Open Scope list_scope.


Definition opt_ok (P : yval -> bool) (o : option yval) : bool :=
  match o with None => true | Some v => P v end.

Definition is_map (v : yval) : bool := match v with YMap _ _ => true | _ => false end.
























End Shape.

(** ** [_write_output] and [print_results]

    The buckets hold the rendered messages, used by [print_results] only
    through [f"{error}"]; they are strings here.  The console is the list of
    [print]ed messages (each followed by a newline on stdout).  The report
    file is [Some c] while a handle is open, [c] being what has been written
    to it; [None] when there is no handle. *)

Module Report.
Import Dab.
Open Scope list_scope.
Open Scope string_scope.

(** [s * n] *)
Fixpoint repeat_str (n : nat) (s : string) : string :=
  match n with 0 => EmptyString | S n' => s ++ repeat_str n' s end.

(** [f"{i:2d}"]: right-aligned in a field of width 2. *)
Definition fmt2d (i : nat) : string :=
  if Nat.ltb i 10 then " " ++ string_of_nat i else string_of_nat i.

(** [_write_output(message, file_handle)] *)
Definition write_output (message : string) (file_handle : option string)
    (console : list string) : list string * option string :=
  ((console ++ [message])%list,
   match file_handle with
   | Some c => Some (c ++ message ++ nl)
   | None => None
   end).

(** A run of [_write_output(m, file_handle)] calls, in order. *)
Definition emit (messages : list string) (st : list string * option string)
  : list string * option string :=
  fold_left (fun st m => write_output m (snd st) (fst st)) messages st.

(** [for i, m in enumerate(items, 1): f"{i:2d}. {m}"] *)
Fixpoint numbered (i : nat) (items : list string) : list string :=
  match items with
  | [] => []
  | m :: items' => (fmt2d i ++ ". " ++ m) :: numbered (S i) items'
  end.

(** [if items:] header, rule of [dashes] dashes, numbered items. *)
Definition section (header : string) (dashes : nat) (items : list string)
  : list string :=
  match items with
  | [] => []
  | _ => header :: repeat_str dashes "-" :: numbered 1 items
  end.

(** What [open(output_file, 'w')] followed by the three header writes does. *)
Inductive open_result : Type :=
| Opened
| OpenFailed (err : string).

Definition report_header (project_path timestamp : string) : string :=
  "# Enterprise DAB Validation Report" ++ nl
  ++ "# Generated: " ++ timestamp ++ nl
  ++ "# Project Path: " ++ project_path ++ nl ++ nl.

Definition summary_line (errors warnings suggestions : list string) : string :=
  "SUMMARY: " ++ string_of_nat (length errors) ++ " critical issues, "
  ++ string_of_nat (length warnings) ++ " warnings, "
  ++ string_of_nat (length suggestions) ++ " suggestions".

Definition rule80 : string := repeat_str 80 "=".

Definition footer (errors warnings suggestions : list string) : list string :=
  [nl ++ rule80; summary_line errors warnings suggestions; rule80].

(** Returns the console lines and the final content of the report file. *)
Definition print_results (project_path timestamp : string)
    (output_file : option string) (opening : open_result)
    (errors warnings suggestions : list string) : list string * option string :=
  let total_issues := length errors + length warnings + length suggestions in
  let out_set := match output_file with
                 | Some f => negb (String.eqb f EmptyString)
                 | None => false
                 end in
  let st0 :=
    match output_file, out_set, opening with
    | Some _, true, Opened => ([], Some (report_header project_path timestamp))
    | Some f, true, OpenFailed e =>
        (["Warning: Could not create output file '" ++ f ++ "': " ++ e], None)
    | _, _, _ => ([], None)
    end in
  let st := emit [nl ++ rule80; "VALIDATION RESULTS"; rule80] st0 in
  if Nat.eqb total_issues 0 then
    emit ["STATUS: All enterprise policies are compliant.";
          "No issues found - configuration meets all organizational requirements.";
          rule80] st
  else
    let st := emit (section (nl ++ "[CRITICAL] POLICY VIOLATIONS - MUST BE FIXED:") 50 errors
                    ++ section (nl ++ "[WARNING] POLICY RECOMMENDATIONS - SHOULD BE ADDRESSED:") 60 warnings
                    ++ section (nl ++ "[ADVISORY] OPTIMIZATION SUGGESTIONS - CONSIDER IMPLEMENTING:") 65 suggestions
                    ++ footer errors warnings suggestions)%list st in
    match output_file, snd st with
    | Some f, Some _ =>
        if out_set then (fst (write_output (nl ++ "Validation report saved to: " ++ f) None (fst st)), snd st)
        else st
    | _, _ => st
    end.

(** The text the report file receives for the messages [ms]:
    [file_handle.write(message + "\n")] for each. *)
Fixpoint lines (ms : list string) : string :=
  match ms with [] => EmptyString | m :: ms' => m ++ nl ++ lines ms' end.

(** The three lines [print_results] always prints first. *)
Definition banner : list string := [nl ++ rule80; "VALIDATION RESULTS"; rule80].

(** What follows the banner: the compliance notice, or the non-empty
    sections and the summary. *)
Definition body (e w s : list string) : list string :=
  if Nat.eqb (length e + length w + length s) 0 then
    ["STATUS: All enterprise policies are compliant.";
     "No issues found - configuration meets all organizational requirements.";
     rule80]
  else
    app (section (nl ++ "[CRITICAL] POLICY VIOLATIONS - MUST BE FIXED:") 50 e)
     (app (section (nl ++ "[WARNING] POLICY RECOMMENDATIONS - SHOULD BE ADDRESSED:") 60 w)
     (app (section (nl ++ "[ADVISORY] OPTIMIZATION SUGGESTIONS - CONSIDER IMPLEMENTING:") 65 s)
          (footer e w s))).

End Report.

(** ** Sample documents and relations used by the proofs *)

Module Samples.
Import Dab.
Open Scope string_scope.
Open Scope list_scope.

(** The error bucket only grows. *)
Definition grows (b b' : buckets) : Prop := exists l, errors b' = errors b ++ l.

(** The buckets only gain findings: [Pe], [Pw] and [Ps] hold of every
    error, warning and suggestion appended. *)
Definition adds (Pe Pw Ps : finding -> Prop) (b b' : buckets) : Prop :=
  exists e w s,
    errors b' = errors b ++ e /\ warnings b' = warnings b ++ w
    /\ suggestions b' = suggestions b ++ s
    /\ Forall Pe e /\ Forall Pw w /\ Forall Ps s.

Definition no_finding (f : finding) : Prop := False.


(** The findings each evaluator reports. *)
Definition naming_finding (f : finding) : Prop :=
  match f with
  | JobNameNotCapitalized _ _ | JobNameWithoutEnvironment _
  | ClusterKeyNotLowercase _ => True
  | _ => False
  end.

Definition tags_finding (file_path : string) (f : finding) : Prop :=
  match f with
  | MissingRequiredTags _ fp missing =>
      fp = file_path /\ missing <> [] /\ NoDup missing /\ incl missing required_tags
  | _ => False
  end.

Definition security_warning (f : finding) : Prop :=
  match f with
  | NonStandardNotebookPath _ _ | MaxConcurrentExceeded _ _ => True
  | _ => False
  end.

Definition cost_finding (f : finding) : Prop :=
  match f with ManyWorkers _ _ | HardcodedNodeType _ => True | _ => False end.

Definition best_practice_finding (f : finding) : Prop :=
  match f with
  | NoFailureNotification _ | NoTimeout _ | NoRetryOnTimeout _ => True
  | _ => False
  end.

(** A best-practice suggestion about the job [job]. *)
Definition job_best_practice (job : string) (f : finding) : Prop :=
  match f with
  | NoFailureNotification n | NoTimeout n | NoRetryOnTimeout n => n = job
  | _ => False
  end.

(** A missing-tags error of [file_path] about the job [job]. *)
Definition job_tags_error (file_path job : string) (f : finding) : Prop :=
  tags_finding file_path f /\
  match f with MissingRequiredTags n _ _ => n = job | _ => False end.

(** The severity each kind of finding is reported with. *)
Definition error_kind (f : finding) : Prop :=
  match f with
  | LoadFailed _ _ | SensitiveHardcoded _ _ _ | MissingRequiredTags _ _ _
  | HardcodedSecret _ => True
  | _ => False
  end.

Definition warning_kind (f : finding) : Prop :=
  naming_finding f \/ security_warning f
  \/ match f with EnvVariableMissing _ _ => True | _ => False end.

Definition suggestion_kind (f : finding) : Prop :=
  cost_finding f \/ best_practice_finding f.

Definition missing_bundle_error : string :=
  "[Errno 2] No such file or directory: 'proj/databricks.yml'".

(** The document [password: "hunter2"] after [yaml.safe_load]. *)
Definition password_doc : yval := YMap 1 [("password", YStr "hunter2")].

(** The document [password: "123"]: the value must stay quoted when dumped. *)
Definition numeric_password_doc : yval := YMap 1 [("password", YStr "123")].

(** [resources.jobs.Etl] with its own tags and a cluster carrying a
    [custom_tags] mapping. *)
Definition tagged_job_doc : yval :=
  YMap 1 [("resources", YMap 2 [("jobs", YMap 3 [("Etl", YMap 4 [
    ("tags", YMap 5 [("cost_center", YStr "cc1"); ("environment", YStr "dev")]);
    ("job_clusters", YList [YMap 6 [
       ("job_cluster_key", YStr "main");
       ("new_cluster", YMap 7 [("custom_tags", YMap 8 [("team", YStr "data")])])]])])])])].

(** Two jobs whose [tags] are one dict through a YAML anchor:
    [Ingest: {tags: &t {cost_center, environment}, job_clusters: [{new_cluster:
    {custom_tags: {team}}}]}] and [Report: {tags: *t}]. *)
Definition shared_tags : list (string * yval) :=
  [("cost_center", YStr "cc1"); ("environment", YStr "dev")].

Definition aliased_tags_doc : yval :=
  YMap 1 [("resources", YMap 2 [("jobs", YMap 3 [
    ("Ingest", YMap 4 [
       ("tags", YMap 5 shared_tags);
       ("job_clusters", YList [YMap 6 [
          ("new_cluster", YMap 7 [("custom_tags", YMap 8 [("team", YStr "data")])])]])]);
    ("Report", YMap 9 [("tags", YMap 5 shared_tags)])])])].


Definition py_set_order : list string -> list string := nodup string_dec.

Definition two_env_bundle : yval :=
  YMap 1 [("targets",
           YMap 2 [("A", YMap 3 [("variables", YMap 4 [("x", YStr "1"); ("y", YStr "2")])]);
                   ("B", YMap 5 [("variables", YMap 6 [("x", YStr "3")])])])].

Definition global_var_bundle : yval :=
  YMap 1 [("variables", YMap 2 [("catalog", YMap 3 [("default", YStr "main")])]);
          ("targets",
           YMap 4 [("dev", YMap 5 [("variables", YMap 6 [("schema", YStr "dev")])]);
                   ("prod", YMap 7 [])])].

Definition schema_job_doc : yval :=
  YMap 1 [("resources", YMap 2 [("jobs", YMap 3 [("Nightly_${bundle.environment}", YMap 4 [
    ("name", YStr "Nightly ${bundle.environment}");
    ("tags", YMap 5 [("cost_center", YStr "cc1")]);
    ("job_clusters", YList [YMap 6 [
       ("job_cluster_key", YStr "main_cluster");
       ("new_cluster", YMap 7 [("num_workers", YInt 20);
                               ("custom_tags", YMap 8 [("team", YStr "data")])])]]);
    ("tasks", YList [YMap 9 [("notebook_task", YMap 10 [("notebook_path", YStr "/tmp/x")])]]);
    ("max_concurrent_runs", YInt 8);
    ("email_notifications", YMap 11 [("on_failure", YList [YStr "a@b.c"])])])])])].

(** ** Nested induction over [yval] *)

Section YvalInd.
Variable P : yval -> Prop.
Hypothesis HNull : P YNull.
Hypothesis HBool : forall b, P (YBool b).
Hypothesis HInt : forall z, P (YInt z).
Hypothesis HStr : forall s, P (YStr s).
Hypothesis HList : forall l, Forall P l -> P (YList l).
Hypothesis HMap : forall i d, Forall (fun kv => P (snd kv)) d -> P (YMap i d).

Fixpoint yval_ind' (t : yval) : P t :=
  match t with
  | YNull => HNull
  | YBool b => HBool b
  | YInt z => HInt z
  | YStr s => HStr s
  | YList l =>
      HList l ((fix go (l : list yval) : Forall P l :=
                  match l with
                  | [] => Forall_nil _
                  | x :: l' => Forall_cons _ (yval_ind' x) (go l')
                  end) l)
  | YMap i d =>
      HMap i d ((fix go (d : list (string * yval))
                   : Forall (fun kv => P (snd kv)) d :=
                   match d with
                   | [] => Forall_nil _
                   | kv :: d' => Forall_cons _ (yval_ind' (snd kv)) (go d')
                   end) d)
  end.
End YvalInd.

End Samples.

Module Verif.
Import Dab Samples.
Open Scope string_scope.
Open Scope list_scope.

(** ** Monad and bucket helpers *)

Lemma bind_ok {A B} (m : Exc A) (k : A -> Exc B) r :
  bind m k = Ok r -> exists a, m = Ok a /\ k a = Ok r.
Proof. destruct m as [a|e]; simpl; [eauto | discriminate]. Qed.

Ltac unbind :=
  cbv beta iota zeta in *;
  repeat match goal with
  | H : bind ?m ?k = Ok _ |- _ =>
      let a := fresh "a" in let Ha := fresh "Ha" in
      apply bind_ok in H; destruct H as (a & Ha & H); cbv beta iota zeta in H
  | H : Raise _ = Ok _ |- _ => discriminate H
  | H : (match ?a with _ => _ end) = Ok _ |- _ => destruct a eqn:?; cbv beta iota zeta in H
  end.

Lemma grows_refl b : grows b b.
Proof. exists []. now rewrite app_nil_r. Qed.

Lemma grows_trans b1 b2 b3 : grows b1 b2 -> grows b2 b3 -> grows b1 b3.
Proof.
  intros [l1 H1] [l2 H2]. exists (l1 ++ l2). now rewrite H2, H1, app_assoc.
Qed.

Lemma grows_error b f : grows b (add_error b f).
Proof. now exists [f]. Qed.
Lemma grows_warning b f : grows b (add_warning b f).
Proof. exists []. simpl. now rewrite app_nil_r. Qed.
Lemma grows_suggestion b f : grows b (add_suggestion b f).
Proof. exists []. simpl. now rewrite app_nil_r. Qed.

Create HintDb grows.
#[local] Hint Resolve grows_refl grows_error grows_warning grows_suggestion : grows.

Lemma grows_if (c : bool) b b1 b2 : grows b b1 -> grows b b2 -> grows b (if c then b1 else b2).
Proof. now destruct c. Qed.

Lemma for_each_grows {A} (l : list A) (body : A -> buckets -> Exc buckets) :
  (forall x b b', body x b = Ok b' -> grows b b') ->
  forall b b', for_each l body b = Ok b' -> grows b b'.
Proof.
  intros Hbody. induction l as [|x l IH]; simpl; intros b b' H.
  - injection H as <-. apply grows_refl.
  - unbind. eapply grows_trans; [eapply Hbody; eauto | eauto].
Qed.

Ltac ok_inv :=
  repeat match goal with
  | H : Ok _ = Ok _ |- _ => injection H as H; subst
  end.

Ltac grows_solve :=
  repeat match goal with
  | |- grows ?b ?b => apply grows_refl
  | |- grows _ (if ?c then _ else _) => destruct c
  | |- grows _ (add_error _ _) => eapply grows_trans; [|apply grows_error]
  | |- grows _ (add_warning _ _) => eapply grows_trans; [|apply grows_warning]
  | |- grows _ (add_suggestion _ _) => eapply grows_trans; [|apply grows_suggestion]
  | |- grows _ (match ?x with _ => _ end) => destruct x
  end.

Lemma naming_grows jc f b b' : check_naming_conventions jc f b = Ok b' -> grows b b'.
Proof.
  unfold check_naming_conventions. intros H. unbind.
  eapply for_each_grows; [|exact H]. intros [job_name job_def] b1 b2 H1. unbind.
  eapply grows_trans; [|eapply for_each_grows; [|exact H1]]; [grows_solve|].
  intros cl b3 b4 H2. unbind; ok_inv; grows_solve.
Qed.

Lemma required_tags_loop_grows n f jobs t b t' b' :
  required_tags_loop n f jobs t b = Ok (t', b') -> grows b b'.
Proof.
  revert jobs t b. induction n as [|n IH]; intros jobs t b H; simpl in H.
  - injection H as _ <-. apply grows_refl.
  - destruct jobs as [|[job_name job_def] rest].
    + injection H as _ <-. apply grows_refl.
    + unbind.
      eapply grows_trans; [|eapply IH; exact H]. grows_solve.
Qed.

Lemma required_tags_grows jc f b t' b' : check_required_tags jc f b = Ok (t', b') -> grows b b'.
Proof. unfold check_required_tags. intros H. unbind. eapply required_tags_loop_grows; eauto. Qed.

Lemma secret_scan_grows ws txt f b :
  grows b (fold_left (fun b w => if secret_search w txt
                                 then add_error b (HardcodedSecret f) else b) ws b).
Proof.
  revert b. induction ws as [|w ws IH]; simpl; intros b.
  - apply grows_refl.
  - eapply grows_trans; [|apply IH]. grows_solve.
Qed.

Lemma security_grows jc f b b' : check_security_compliance jc f b = Ok b' -> grows b b'.
Proof.
  unfold check_security_compliance. intros H. unbind.
  eapply grows_trans; [apply secret_scan_grows|].
  eapply for_each_grows; [|exact H]. intros [job_name job_def] b1 b2 H1. unbind.
  eapply grows_trans; [eapply for_each_grows; [|exact Ha2]|].
  - intros task b3 b4 H2. unbind; ok_inv; grows_solve.
  - ok_inv. grows_solve.
Qed.

Lemma cost_grows jc f b b' : check_cost_optimization jc f b = Ok b' -> grows b b'.
Proof.
  unfold check_cost_optimization. intros H. unbind.
  eapply for_each_grows; [|exact H]. intros [job_name job_def] b1 b2 H1. unbind.
  eapply for_each_grows; [|exact H1]. intros cl b3 b4 H2. unbind; ok_inv; grows_solve.
Qed.

Lemma best_grows jc f b b' : check_best_practices jc f b = Ok b' -> grows b b'.
Proof.
  unfold check_best_practices. intros H. unbind.
  eapply for_each_grows; [|exact H]. intros [job_name job_def] b1 b2 H1. unbind. ok_inv.
  grows_solve.
Qed.

Lemma run_checks_grows jc f b t' b' : run_checks jc f b = Ok (t', b') -> grows b b'.
Proof.
  unfold run_checks. intros H. unbind. ok_inv.
  eapply grows_trans with (b2 := check_variable_usage_policy jc f b).
  { exists (check_object f jc EmptyString). reflexivity. }
  eapply grows_trans; [eapply naming_grows; eauto|].
  eapply grows_trans; [eapply required_tags_grows; eauto|].
  eapply grows_trans; [eapply security_grows; eauto|].
  eapply grows_trans; [eapply cost_grows; eauto|].
  eapply best_grows; eauto.
Qed.

Lemma validate_job_file_grows jf b b' : validate_job_file jf b = Ok b' -> grows b b'.
Proof.
  unfold validate_job_file, load_yaml. destruct jf as [p r [v|e]]; simpl;
  intros H; unbind; ok_inv;
    first [ eapply run_checks_grows; eassumption | apply grows_error | apply grows_refl ].
Qed.

Lemma validate_files_grows jfs b b' : for_each jfs validate_job_file b = Ok b' -> grows b b'.
Proof. apply for_each_grows. apply validate_job_file_grows. Qed.

(** ** Exit status *)

(** C1: for a run that completes, [main] exits with 0 exactly when there is
    no error and either no warning or no [--strict]; it exits with 1 exactly
    when there is an error, or [--strict] is set and there is a warning; the
    suggestions never change the status. *)
Theorem exit_code_policy (strict : bool) (b : buckets) :
  (exit_code strict (Ok b) = 0%Z <->
     errors b = [] /\ (warnings b = [] \/ strict = false)) /\
  (exit_code strict (Ok b) = 1%Z <->
     errors b <> [] \/ (strict = true /\ warnings b <> [])) /\
  (forall s', exit_code strict (Ok (mk_buckets (errors b) (warnings b) s'))
              = exit_code strict (Ok b)).
Proof.
  destruct b as [es ws ss]; unfold exit_code, validate_ok; simpl.
  destruct es as [|e es], ws as [|w ws], strict; simpl;
    repeat split; intros; try discriminate; try congruence; intuition congruence.
Qed.

(** ** Load failures *)

(** C6: when opening or parsing a job file fails, [load_yaml] records one
    error carrying the path and the error text and returns an empty dict;
    [validate_job_file] then returns normally with no other finding. *)
Theorem load_failure_soft (file_path relative err : string) (b : buckets) :
  load_yaml file_path (LoadError err) b
    = (fresh_dict, add_error b (LoadFailed file_path err)) /\
  validate_job_file (mk_job_file file_path relative (LoadError err)) b
    = Ok (mk_buckets (errors b ++ [LoadFailed file_path err]) (warnings b) (suggestions b)).
Proof. split; reflexivity. Qed.

(** ** A missing [databricks.yml] *)

(** C9 (as stated, refuted): with no [databricks.yml] and no job file the
    consistency stage records an error and the run exits with 1. *)
Lemma absent_bundle_not_neutral :
  validate_environment_consistency (fun l => l) "proj/databricks.yml"
      (LoadError missing_bundle_error) empty_buckets
    = Ok (mk_buckets [LoadFailed "proj/databricks.yml" missing_bundle_error] [] []) /\
  exit_code false (validate (fun l => l) "proj/databricks.yml"
                     (LoadError missing_bundle_error) []) = 1%Z.
Proof. split; reflexivity. Qed.

(** C9 (amended): when [databricks.yml] cannot be loaded (absent), the
    consistency stage records exactly one error, the load failure, and no
    warning or suggestion; the run then never passes. *)
Theorem absent_bundle_one_error (set_order : list string -> list string)
    (bundle_path err : string) (job_files : list job_file) :
  validate_environment_consistency set_order bundle_path (LoadError err) empty_buckets
    = Ok (mk_buckets [LoadFailed bundle_path err] [] []) /\
  match validate set_order bundle_path (LoadError err) job_files with
  | Ok b => validate_ok b = false
  | Raise _ => True
  end.
Proof.
  assert (E : validate_environment_consistency set_order bundle_path (LoadError err)
                empty_buckets = Ok (mk_buckets [LoadFailed bundle_path err] [] []))
    by reflexivity.
  split; [exact E|].
  unfold validate. rewrite E. simpl.
  destruct (for_each job_files validate_job_file _) as [b|e] eqn:F; [|exact I].
  apply validate_files_grows in F. destruct F as [l Hl].
  unfold validate_ok. rewrite Hl. reflexivity.
Qed.

(** ** Secret scan on re-serialised YAML *)

Example numeric_password_flagged :
  check_security_compliance numeric_password_doc "resources/secrets.yml" empty_buckets
    = Ok (mk_buckets [HardcodedSecret "resources/secrets.yml"] [] []).
Proof. vm_compute. reflexivity. Qed.

(** C4: [yaml.dump] emits [hunter2] unquoted, so none of the four quoted
    patterns matches the dumped text: the file yields no finding at all. *)
Theorem password_literal_not_flagged :
  yaml_dump password_doc = ("password: hunter2" ++ nl)%string /\
  check_security_compliance password_doc "resources/secrets.yml" empty_buckets
    = Ok empty_buckets /\
  validate_job_file (mk_job_file "proj/resources/secrets.yml" "resources/secrets.yml"
                       (Loaded password_doc)) empty_buckets
    = Ok empty_buckets.
Proof. vm_compute. repeat split. Qed.

(** ** Mutation of a job's [tags] *)

(** C8: the evaluator suite does not leave every tree unchanged; on
    [tagged_job_doc] the job's [tags] mapping gains [team]. *)
Theorem suite_mutates_tags :
  ~ (forall t file b t' b', run_checks t file b = Ok (t', b') -> t' = t) /\
  match run_checks tagged_job_doc "resources/etl.yml" empty_buckets with
  | Ok (YMap _ [("resources", YMap _ [("jobs", YMap _ [("Etl", YMap _ (("tags", tags) :: _))])])], _) =>
      tags = YMap 5 [("cost_center", YStr "cc1"); ("environment", YStr "dev");
                     ("team", YStr "data")]
  | _ => False
  end.
Proof.
  split.
  - intros H.
    destruct (run_checks tagged_job_doc "resources/etl.yml" empty_buckets)
      as [[t' b']|e] eqn:E; [|vm_compute in E; discriminate].
    pose proof (H _ _ _ _ _ E) as Ht.
    vm_compute in E. injection E as Et _. subst t'. discriminate Ht.
  - vm_compute. reflexivity.
Qed.

(** C2: [Report]'s own tags lack [team] and it has no cluster, yet no
    missing-tag error is emitted for it: [Ingest]'s cluster tags were written
    into the shared dict. *)
Theorem aliased_tags_hide_missing_tag :
  missing_tags (dict_keys shared_tags) = ["team"] /\
  match check_required_tags aliased_tags_doc "resources/jobs.yml" empty_buckets with
  | Ok (_, b) => errors b = []
  | Raise _ => False
  end.
Proof. vm_compute. split; reflexivity. Qed.

(** ** A job definition that is not a mapping *)



(** ** [check_object] against the step-path enumeration *)

Lemma flat_map_under (file acc : string) (s : Paths.step) (es : list Paths.entry) :
  flat_map (Paths.violation_at acc file) (map (Paths.under s) es)
  = flat_map (Paths.violation_at (Paths.render_step acc s) file) es.
Proof.
  induction es as [|[[p k] v] es IH]; [reflexivity|].
  simpl. rewrite IH. reflexivity.
Qed.

Lemma check_object_map_cons (file acc : string) i k v d :
  check_object file (YMap i ((k, v) :: d)) acc
  = Paths.violation_at acc file ([Paths.SKey k], k, v)
    ++ check_object file v (child_path acc k)
    ++ check_object file (YMap i d) acc.
Proof. reflexivity. Qed.

Lemma entries_map_cons i k v d :
  Paths.entries (YMap i ((k, v) :: d))
  = ([Paths.SKey k], k, v) :: map (Paths.under (Paths.SKey k)) (Paths.entries v)
    ++ Paths.entries (YMap i d).
Proof. reflexivity. Qed.

Lemma check_object_entries (file : string) (t : yval) :
  forall acc, check_object file t acc
              = flat_map (Paths.violation_at acc file) (Paths.entries t).
Proof.
  induction t as [| | | |l Hl|i d Hd] using yval_ind'; intro acc;
    try reflexivity.
  - change (Paths.check_items file acc 0 l
            = flat_map (Paths.violation_at acc file) (Paths.entries_items 0 l)).
    generalize 0.
    induction Hl as [|x l Hx Hl IH]; intro n; [reflexivity|].
    change (check_object file x (index_path acc n) ++ Paths.check_items file acc (S n) l
            = flat_map (Paths.violation_at acc file)
                (map (Paths.under (Paths.SIdx n)) (Paths.entries x)
                 ++ Paths.entries_items (S n) l)).
    rewrite flat_map_app, flat_map_under, IH, Hx. reflexivity.
  - induction Hd as [|[k v] d Hv Hd IH]; [reflexivity|].
    rewrite check_object_map_cons, entries_map_cons.
    simpl flat_map at 1. rewrite flat_map_app, flat_map_under, IH, Hv.
    reflexivity.
Qed.

(** C3: the variable-usage evaluator appends to the errors, and only to
    them, exactly one finding per entry of the tree whose key is one of the
    seven sensitive fields and whose value is a string not starting with
    [${]: in document order, each naming the entry's path rendered from the
    root (a key step [.key], just [key] at the root; an index step [[i]]),
    the file and the literal value.  Entries with other keys or non-string
    values give nothing. *)
Theorem variable_policy_per_occurrence (job_config : yval) (file : string)
    (b : buckets) :
  check_variable_usage_policy job_config file b
  = mk_buckets (errors b ++ flat_map (Paths.violation file) (Paths.entries job_config))
               (warnings b) (suggestions b).
Proof.
  unfold check_variable_usage_policy. rewrite check_object_entries. reflexivity.
Qed.

(** ** Cross-environment consistency *)

Lemma extract_loaded_buckets bp v b envs b1 :
  extract_environment_variables bp (Loaded v) b = Ok (envs, b1) -> b1 = b.
Proof.
  intro H. unfold extract_environment_variables, load_yaml in H.
  destruct (py_truthy v) eqn:T; simpl in H.
  - rewrite T in H. simpl in H. unbind. congruence.
  - congruence.
Qed.

Lemma map_keys_ok envs kl :
  map_exc (fun env : string * yval => py_keys (snd env)) envs = Ok kl ->
  kl = map (fun env => Envs.env_var_names (snd env)) envs /\
  forallb (fun env => Envs.is_map (snd env)) envs = true.
Proof.
  revert kl. induction envs as [|[n ev] envs IH]; intros kl H; simpl in H.
  - inversion H. auto.
  - destruct ev; simpl in H; try discriminate.
    destruct (map_exc _ envs) as [ks|] eqn:E; simpl in H; [|discriminate].
    inversion H; subst. destruct (IH ks eq_refl) as [-> Hm]. auto.
Qed.

Lemma mem_In k l : mem k l = true <-> In k l.
Proof.
  unfold mem. rewrite existsb_exists. split.
  - intros (x & Hx & E). apply String.eqb_eq in E. now subst.
  - intro H. exists k. split; [exact H | apply String.eqb_refl].
Qed.

Lemma fold_missing var_name envs acc :
  forallb (fun env => Envs.is_map (snd env)) envs = true ->
  fold_exc (fun (acc : list string) (env : string * yval) =>
              present <- py_in var_name (snd env) ;;
              Ok (if present then acc else (acc ++ [fst env])%list))
           envs acc = Ok (acc ++ Envs.missing_in var_name envs).
Proof.
  revert acc. induction envs as [|[n ev] envs IH]; intros acc Hm.
  - simpl. now rewrite app_nil_r.
  - simpl in Hm. apply andb_prop in Hm as [Hev Hm].
    destruct ev; try discriminate. simpl.
    unfold Envs.missing_in, Envs.has_var. simpl.
    destruct (mem var_name (dict_keys entries)); simpl.
    + apply IH, Hm.
    + rewrite IH by exact Hm. now rewrite <- app_assoc.
Qed.

Lemma for_each_append {A} (l : list A) (body : A -> buckets -> Exc buckets)
    (w : A -> list finding) b :
  (forall x b, In x l -> body x b = Ok (mk_buckets (errors b) (warnings b ++ w x) (suggestions b))) ->
  for_each l body b = Ok (mk_buckets (errors b) (warnings b ++ flat_map w l) (suggestions b)).
Proof.
  revert b. induction l as [|x l IH]; intros b H; simpl.
  - destruct b; simpl. now rewrite app_nil_r.
  - rewrite H by (left; reflexivity). simpl.
    rewrite IH by (intros; apply H; right; assumption). simpl.
    now rewrite app_assoc.
Qed.

Lemma count_named var envs l :
  NoDup l ->
  length (filter (Envs.names_var var) (flat_map (Envs.warning_for envs) l))
  = if mem var l && negb (Nat.eqb (length (Envs.missing_in var envs)) 0) then 1 else 0.
Proof.
  induction l as [|a l IH]; intro Hnd; [reflexivity|].
  inversion Hnd as [|? ? Ha Hl]; subst.
  simpl flat_map. rewrite filter_app, length_app, IH by exact Hl.
  unfold mem at 1. simpl existsb. fold (mem var l).
  unfold Envs.warning_for.
  destruct (String.eqb_spec var a) as [->|Hne].
  - assert (mem a l = false) as ->.
    { destruct (mem a l) eqn:M; [|reflexivity]. apply mem_In in M. contradiction. }
    destruct (Envs.missing_in a envs); simpl;
      rewrite ?String.eqb_refl; reflexivity.
  - assert (E1 : String.eqb var a = false) by (apply String.eqb_neq; exact Hne).
    assert (E2 : String.eqb a var = false) by (apply String.eqb_neq; congruence).
    cbv beta. simpl. rewrite E1. simpl orb.
    destruct (Envs.missing_in a envs); simpl; rewrite ?E2; reflexivity.
Qed.

Lemma in_warnings var ms envs l :
  In (EnvVariableMissing var ms) (flat_map (Envs.warning_for envs) l)
  <-> In var l /\ ms = Envs.missing_in var envs /\ ms <> [].
Proof.
  rewrite in_flat_map. unfold Envs.warning_for. split.
  - intros (x & Hx & Hw). destruct (Envs.missing_in x envs) eqn:M; [contradiction|].
    destruct Hw as [Hw|[]]. inversion Hw; subst. rewrite M. split; [exact Hx|].
    split; [reflexivity|discriminate].
  - intros (Hv & -> & Hne). exists var. split; [exact Hv|].
    destruct (Envs.missing_in var envs); [contradiction|]. now left.
Qed.

Lemma mem_same k l1 l2 : (forall x, In x l1 <-> In x l2) -> mem k l1 = mem k l2.
Proof.
  intro H. destruct (mem k l2) eqn:M2.
  - apply mem_In, H, mem_In in M2. exact M2.
  - destruct (mem k l1) eqn:M1; [|reflexivity].
    apply mem_In, H, mem_In in M1. congruence.
Qed.

Lemma consistency_shape set_order bundle_path v b b' :
  validate_environment_consistency set_order bundle_path (Loaded v) b = Ok b' ->
  exists envs,
    extract_environment_variables bundle_path (Loaded v) b = Ok (envs, b) /\
    (length envs < 2 -> b' = b) /\
    (2 <= length envs ->
     b' = mk_buckets (errors b)
            (warnings b ++ flat_map (Envs.warning_for envs) (set_order (Envs.all_names envs)))
            (suggestions b)).
Proof.
  intro H. unfold validate_environment_consistency in H.
  destruct (extract_environment_variables bundle_path (Loaded v) b) as [[envs b1]|e] eqn:X;
    simpl in H; [|discriminate].
  pose proof (extract_loaded_buckets _ _ _ _ _ X); subst b1.
  exists envs. split; [reflexivity|].
  destruct (Nat.ltb (length envs) 2) eqn:L.
  - apply Nat.ltb_lt in L. split; [intros _; congruence | intro; lia].
  - apply Nat.ltb_ge in L. split; [intro; lia | intros _].
    destruct (map_exc (fun env : string * yval => py_keys (snd env)) envs) as [kl|] eqn:K;
      simpl in H; [|discriminate].
    destruct (map_keys_ok _ _ K) as [-> Hm].
    rewrite for_each_append with (w := Envs.warning_for envs) in H.
    + injection H as <-. reflexivity.
    + intros x b0 _. rewrite fold_missing by exact Hm. simpl.
      unfold Envs.warning_for.
      destruct (Envs.missing_in x envs); destruct b0; simpl; [now rewrite app_nil_r | reflexivity].
Qed.

(** C5 (amended): when databricks.yml loads and the stage completes, the
    buckets are unchanged when fewer than two environments are extracted;
    otherwise only warnings are appended, one per variable name of the
    union of the environments' names (in set iteration order) that some
    environment lacks, naming it and the environments lacking it in target
    order; a name present everywhere gives none.  When databricks.yml is
    absent or fails to load, no environment is extracted and the stage
    records exactly the loader's error for it.  [set_order] is the
    iteration order of a Python set: each element once. *)
Theorem env_consistency_findings (set_order : list string -> list string)
    (Hso : forall l, NoDup (set_order l) /\ forall x, In x (set_order l) <-> In x l)
    (bundle_path : string) (b : buckets) :
  (forall v b',
  validate_environment_consistency set_order bundle_path (Loaded v) b = Ok b' ->
  exists envs,
    extract_environment_variables bundle_path (Loaded v) b = Ok (envs, b) /\
    (length envs < 2 -> b' = b) /\
    (2 <= length envs ->
     exists new,
       b' = mk_buckets (errors b) (warnings b ++ new) (suggestions b) /\
       new = flat_map (Envs.warning_for envs) (set_order (Envs.all_names envs)) /\
       (forall var, length (filter (Envs.names_var var) new)
                    = if mem var (Envs.all_names envs)
                         && negb (Nat.eqb (length (Envs.missing_in var envs)) 0)
                      then 1 else 0) /\
       (forall var ms, In (EnvVariableMissing var ms) new <->
                       In var (Envs.all_names envs) /\ ms = Envs.missing_in var envs /\ ms <> []))) /\
  (forall err,
     extract_environment_variables bundle_path (LoadError err) b
       = Ok ([], add_error b (LoadFailed bundle_path err)) /\
     validate_environment_consistency set_order bundle_path (LoadError err) b
       = Ok (add_error b (LoadFailed bundle_path err))).
Proof.
  split; [|intro err; split; reflexivity].
  intros v b' H. destruct (consistency_shape _ _ _ _ _ H) as (envs & X & Hlt & Hge).
  exists envs. split; [exact X|]. split; [exact Hlt|].
  intro L. eexists. split; [exact (Hge L)|]. split; [reflexivity|].
  destruct (Hso (Envs.all_names envs)) as [Hnd Hin]. split.
  - intro var. rewrite count_named by exact Hnd. now rewrite (mem_same var _ _ Hin).
  - intros var ms. rewrite in_warnings, Hin. reflexivity.
Qed.

Lemma fold_exc_inv {A B} (Q : A -> Prop) (f : A -> B -> Exc A) l a a' :
  (forall a x a', In x l -> Q a -> f a x = Ok a' -> Q a') ->
  Q a -> fold_exc f l a = Ok a' -> Q a'.
Proof.
  revert a. induction l as [|x l IH]; intros a Hs Ha H; simpl in H.
  - congruence.
  - destruct (f a x) as [a1|] eqn:F; simpl in H; [|discriminate].
    apply (IH a1); [intros; eapply Hs; [right|..]; eassumption | | exact H].
    eapply Hs; [left; reflexivity | exact Ha | exact F].
Qed.

Lemma keys_dict_set_new d k v : In k (dict_keys (dict_set d k v)).
Proof.
  induction d as [|[k' v'] d IH]; simpl; [now left|].
  destruct (String.eqb_spec k k'); simpl; [now left | now right].
Qed.

Lemma keys_dict_set_old d k v : incl (dict_keys d) (dict_keys (dict_set d k v)).
Proof.
  induction d as [|[k' v'] d IH]; simpl; [intros x []|].
  destruct (String.eqb k k'); simpl.
  - apply incl_refl.
  - intros x [->|Hx]; [now left | right; now apply IH].
Qed.

Lemma keys_update_left d e : incl (dict_keys d) (dict_keys (dict_update d e)).
Proof.
  unfold dict_update. revert d. induction e as [|[k v] e IH]; intro d; simpl.
  - apply incl_refl.
  - eapply incl_tran; [apply keys_dict_set_old | apply IH].
Qed.

Lemma keys_update_right d e : incl (dict_keys e) (dict_keys (dict_update d e)).
Proof.
  unfold dict_update. revert d. induction e as [|[k v] e IH]; intro d; simpl.
  - intros x [].
  - intros x [->|Hx].
    + apply keys_update_left, keys_dict_set_new.
    + apply IH, Hx.
Qed.

Lemma in_dict_set d k v name ev :
  In (name, ev) (dict_set d k v) -> In (name, ev) d \/ ev = v.
Proof.
  induction d as [|[k' v'] d IH]; simpl.
  - intros [H|[]]. inversion H. auto.
  - destruct (String.eqb k k'); simpl.
    + intros [H|H]; [inversion H; auto | auto].
    + intros [H|H]; [auto | destruct (IH H); auto].
Qed.

Lemma missing_in_nil var envs :
  (forall name ev, In (name, ev) envs -> In var (Envs.env_var_names ev)) ->
  Envs.missing_in var envs = [].
Proof.
  induction envs as [|[n ev] envs IH]; intro H; [reflexivity|].
  unfold Envs.missing_in. simpl.
  unfold Envs.has_var. rewrite (proj2 (mem_In _ _) (H n ev (or_introl eq_refl))). simpl.
  apply IH. intros; eapply H; right; eassumption.
Qed.

Lemma extract_globals bundle_path v gid gd b envs b1 :
  py_get v "variables" fresh_dict = Ok (YMap gid gd) ->
  extract_environment_variables bundle_path (Loaded v) b = Ok (envs, b1) ->
  forall name ev, In (name, ev) envs -> incl (dict_keys gd) (Envs.env_var_names ev).
Proof.
  intros Hg H. unfold extract_environment_variables, load_yaml in H.
  destruct (py_truthy v) eqn:T; simpl in H.
  2: { inversion H; subst. intros ? ? []. }
  rewrite T in H. simpl in H. rewrite Hg in H. simpl in H. unbind.
  injection H as <- <-. intros name ev Hin.
  assert (Inv : forall name ev, In (name, ev) a1 -> incl (dict_keys gd) (Envs.env_var_names ev)).
  { refine (fold_exc_inv (fun acc : list (string * yval) =>
              forall name ev, In (name, ev) acc -> incl (dict_keys gd) (Envs.env_var_names ev))
              _ _ [] a1 _ _ Ha1); [|intros ? ? []].
    intros acc [tn tc] acc' _ Hacc F. unbind.
    injection Ha3 as <-. injection F as <-.
    intros n e He. destruct (in_dict_set _ _ _ _ _ He) as [He' | ->].
    - eapply Hacc, He'.
    - simpl. eapply incl_tran; [apply keys_update_right | apply keys_update_left]. }
  destruct a1; [|exact (Inv name ev Hin)].
  match type of Hin with context [if ?c then _ else _] => destruct c end; [|destruct Hin].
  destruct Hin as [E|[]]. inversion E; subst. apply incl_refl.
Qed.

(** C10: every key of the global [variables] mapping is a key of every
    extracted environment (each target's merged mapping, or the [global]
    fallback), so the consistency stage adds no missing-variable warning
    naming it.  No condition on [targets] is needed. *)
Theorem global_variables_everywhere (set_order : list string -> list string)
    (bundle_path : string) (v : yval) (gid : nat) (gd : list (string * yval)) (b : buckets) :
  py_get v "variables" fresh_dict = Ok (YMap gid gd) ->
  (forall envs b1,
     extract_environment_variables bundle_path (Loaded v) b = Ok (envs, b1) ->
     forall name ev, In (name, ev) envs -> incl (dict_keys gd) (Envs.env_var_names ev)) /\
  (forall b',
     validate_environment_consistency set_order bundle_path (Loaded v) b = Ok b' ->
     forall var ms, In var (dict_keys gd) ->
       In (EnvVariableMissing var ms) (warnings b') ->
       In (EnvVariableMissing var ms) (warnings b)).
Proof.
  intro Hg. split; [intros envs b1 X; exact (extract_globals _ _ _ _ _ _ _ Hg X)|].
  intros b' H var ms Hv Hw.
  destruct (consistency_shape _ _ _ _ _ H) as (envs & X & Hlt & Hge).
  destruct (Nat.lt_ge_cases (length envs) 2) as [L|L].
  - rewrite (Hlt L) in Hw. exact Hw.
  - rewrite (Hge L) in Hw. simpl in Hw. apply in_app_or in Hw as [Hw|Hw]; [exact Hw|].
    apply in_warnings in Hw as (_ & Hms & Hne).
    rewrite missing_in_nil in Hms; [congruence|].
    intros name ev Hin. exact (extract_globals _ _ _ _ _ _ _ Hg X name ev Hin var Hv).
Qed.

Lemma env_consistency_findings_witness :
  (extract_environment_variables "databricks.yml" (LoadError missing_bundle_error) empty_buckets
     = Ok ([], add_error empty_buckets (LoadFailed "databricks.yml" missing_bundle_error)) /\
   validate_environment_consistency py_set_order "databricks.yml"
     (LoadError missing_bundle_error) empty_buckets
     = Ok (add_error empty_buckets (LoadFailed "databricks.yml" missing_bundle_error))) /\
  validate_environment_consistency py_set_order "databricks.yml" (Loaded two_env_bundle)
    empty_buckets = Ok (mk_buckets [] [EnvVariableMissing "y" ["B"]] []) /\
  exists envs,
    extract_environment_variables "databricks.yml" (Loaded two_env_bundle) empty_buckets
      = Ok (envs, empty_buckets) /\
    (length envs < 2 -> mk_buckets [] [EnvVariableMissing "y" ["B"]] [] = empty_buckets) /\
    (2 <= length envs ->
     exists new,
       mk_buckets [] [EnvVariableMissing "y" ["B"]] []
         = mk_buckets (errors empty_buckets) (warnings empty_buckets ++ new)
                      (suggestions empty_buckets) /\
       new = flat_map (Envs.warning_for envs) (py_set_order (Envs.all_names envs)) /\
       (forall var, length (filter (Envs.names_var var) new)
                    = if mem var (Envs.all_names envs)
                         && negb (Nat.eqb (length (Envs.missing_in var envs)) 0)
                      then 1 else 0) /\
       (forall var ms, In (EnvVariableMissing var ms) new <->
                       In var (Envs.all_names envs) /\ ms = Envs.missing_in var envs /\ ms <> [])).
Proof.
  destruct (env_consistency_findings py_set_order
              (fun l => conj (NoDup_nodup string_dec l) (fun x => nodup_In string_dec l x))
              "databricks.yml" empty_buckets) as [HL HE].
  split; [exact (HE missing_bundle_error)|].
  split; [reflexivity|].
  apply (HL two_env_bundle). reflexivity.
Defined.

(** C5, counterexample: with databricks.yml absent or unreadable no
    environment is extracted, yet the stage records the load error. *)
Lemma unloadable_bundle_flagged :
  extract_environment_variables "proj/databricks.yml" (LoadError "No such file")
    empty_buckets
    = Ok ([], mk_buckets [LoadFailed "proj/databricks.yml" "No such file"] [] []) /\
  validate_environment_consistency (fun l => l) "proj/databricks.yml"
    (LoadError "No such file") empty_buckets
    = Ok (mk_buckets [LoadFailed "proj/databricks.yml" "No such file"] [] []).
Proof. split; reflexivity. Qed.

Lemma global_variables_everywhere_witness :
  validate_environment_consistency py_set_order "databricks.yml" (Loaded global_var_bundle)
    empty_buckets = Ok (mk_buckets [] [EnvVariableMissing "schema" ["prod"]] []) /\
  py_get global_var_bundle "variables" fresh_dict
    = Ok (YMap 2 [("catalog", YMap 3 [("default", YStr "main")])]) /\
  (forall envs b1,
     extract_environment_variables "databricks.yml" (Loaded global_var_bundle) empty_buckets
       = Ok (envs, b1) ->
     forall name ev, In (name, ev) envs ->
       incl (dict_keys [("catalog", YMap 3 [("default", YStr "main")])]) (Envs.env_var_names ev)) /\
  (forall b',
     validate_environment_consistency py_set_order "databricks.yml" (Loaded global_var_bundle)
       empty_buckets = Ok b' ->
     forall var ms, In var (dict_keys [("catalog", YMap 3 [("default", YStr "main")])]) ->
       In (EnvVariableMissing var ms) (warnings b') ->
       In (EnvVariableMissing var ms) (warnings empty_buckets)).
Proof.
  split; [reflexivity|]. split; [reflexivity|].
  apply (global_variables_everywhere py_set_order "databricks.yml" global_var_bundle 2
           [("catalog", YMap 3 [("default", YStr "main")])] empty_buckets).
  reflexivity.
Defined.

(** ** Evaluators on schema-shaped job files *)

(** A [dict] mutation through [set_dict i c] keeps the shape of a tree in
    which [i] names no mapping whose entries are read. *)
Section SetDict.
Variables (i : nat) (c : list (string * yval)).




















End SetDict.



Lemma opt_ok_true (P : yval -> bool) o :
  Shape.opt_ok P o = true -> forall x, o = Some x -> P x = true.
Proof. intros H x ->. exact H. Qed.

























(** ** Evaluator findings, environments and the run *)

Lemma adds_refl Pe Pw Ps b : adds Pe Pw Ps b b.
Proof. exists [], [], []. rewrite !app_nil_r. repeat split; constructor. Qed.

Lemma adds_trans Pe Pw Ps b1 b2 b3 :
  adds Pe Pw Ps b1 b2 -> adds Pe Pw Ps b2 b3 -> adds Pe Pw Ps b1 b3.
Proof.
  intros (e1 & w1 & s1 & E1 & W1 & S1 & Fe1 & Fw1 & Fs1)
         (e2 & w2 & s2 & E2 & W2 & S2 & Fe2 & Fw2 & Fs2).
  exists (e1 ++ e2), (w1 ++ w2), (s1 ++ s2).
  rewrite E2, W2, S2, E1, W1, S1, !app_assoc.
  repeat split; apply Forall_app; auto.
Qed.

Lemma adds_error (Pe Pw Ps : finding -> Prop) b f : Pe f -> adds Pe Pw Ps b (add_error b f).
Proof. intro H. exists [f], [], []. rewrite !app_nil_r. repeat split; auto. Qed.

Lemma adds_warning (Pe Pw Ps : finding -> Prop) b f : Pw f -> adds Pe Pw Ps b (add_warning b f).
Proof. intro H. exists [], [f], []. rewrite !app_nil_r. repeat split; auto. Qed.

Lemma adds_suggestion (Pe Pw Ps : finding -> Prop) b f : Ps f -> adds Pe Pw Ps b (add_suggestion b f).
Proof. intro H. exists [], [], [f]. rewrite !app_nil_r. repeat split; auto. Qed.

Lemma adds_mono (Pe Pw Ps Qe Qw Qs : finding -> Prop) b b' :
  (forall f, Pe f -> Qe f) -> (forall f, Pw f -> Qw f) -> (forall f, Ps f -> Qs f) ->
  adds Pe Pw Ps b b' -> adds Qe Qw Qs b b'.
Proof.
  intros He Hw Hs (e & w & s & E & W & S & Fe & Fw & Fs).
  exists e, w, s. repeat split; auto; eapply Forall_impl; eauto.
Qed.

Lemma for_each_adds {A} Pe Pw Ps (l : list A) (body : A -> buckets -> Exc buckets) :
  (forall x b b', body x b = Ok b' -> adds Pe Pw Ps b b') ->
  forall b b', for_each l body b = Ok b' -> adds Pe Pw Ps b b'.
Proof.
  intros Hbody. induction l as [|x l IH]; intros b b' H; simpl in H.
  - injection H as <-. apply adds_refl.
  - unbind. eapply adds_trans; [eapply Hbody; eauto | eauto].
Qed.

Ltac adds_solve :=
  repeat match goal with
  | |- adds _ _ _ ?b ?b => apply adds_refl
  | |- adds _ _ _ _ (if ?c then _ else _) => destruct c
  | |- adds _ _ _ _ (add_error _ _) => eapply adds_trans; [|apply adds_error; simpl; auto]
  | |- adds _ _ _ _ (add_warning _ _) => eapply adds_trans; [|apply adds_warning; simpl; auto]
  | |- adds _ _ _ _ (add_suggestion _ _) => eapply adds_trans; [|apply adds_suggestion; simpl; auto]
  | |- adds _ _ _ _ (match ?x with _ => _ end) => destruct x
  end.

Lemma naming_adds jc f b b' :
  check_naming_conventions jc f b = Ok b' -> adds no_finding naming_finding no_finding b b'.
Proof.
  unfold check_naming_conventions. intros H. unbind.
  eapply for_each_adds; [|exact H]. intros [job_name job_def] b1 b2 H1. unbind.
  eapply adds_trans; [|eapply for_each_adds; [|exact H1]]; [adds_solve|].
  intros cl b3 b4 H2. unbind; ok_inv; adds_solve.
Qed.

Lemma cost_adds jc f b b' :
  check_cost_optimization jc f b = Ok b' -> adds no_finding no_finding cost_finding b b'.
Proof.
  unfold check_cost_optimization. intros H. unbind.
  eapply for_each_adds; [|exact H]. intros [job_name job_def] b1 b2 H1. unbind.
  eapply for_each_adds; [|exact H1]. intros cl b3 b4 H2. unbind; ok_inv; adds_solve.
Qed.

Lemma best_practices_adds jc f b b' :
  check_best_practices jc f b = Ok b' -> adds no_finding no_finding best_practice_finding b b'.
Proof.
  unfold check_best_practices. intros H. unbind.
  eapply for_each_adds; [|exact H]. intros [job_name job_def] b1 b2 H1. unbind; ok_inv; adds_solve.
Qed.

(** [check_naming_conventions] only warns, with the three naming findings. *)
Theorem naming_only_warnings jc f b b' :
  check_naming_conventions jc f b = Ok b' -> adds no_finding naming_finding no_finding b b'.
Proof. apply naming_adds. Qed.

(** [check_cost_optimization] only suggests, with the two cost findings. *)
Theorem cost_only_suggestions jc f b b' :
  check_cost_optimization jc f b = Ok b' -> adds no_finding no_finding cost_finding b b'.
Proof. apply cost_adds. Qed.

Lemma best_practices_loop jobs b b' :
  for_each jobs (fun (job : string * yval) b =>
    let (job_name, job_def) := job in
    email_notifications <- py_get job_def "email_notifications" fresh_dict ;;
    on_failure <- py_get email_notifications "on_failure" YNull ;;
    let b := if py_truthy on_failure then b
             else add_suggestion b (NoFailureNotification job_name) in
    has_timeout <- py_in "timeout_seconds" job_def ;;
    let b := if has_timeout then b else add_suggestion b (NoTimeout job_name) in
    has_retry <- py_in "retry_on_timeout" job_def ;;
    Ok (if has_retry then b else add_suggestion b (NoRetryOnTimeout job_name))) b = Ok b' ->
  exists ss, errors b' = errors b /\ warnings b' = warnings b
    /\ suggestions b' = suggestions b ++ concat ss
    /\ Forall2 (fun job sj => length sj <= 3 /\ Forall (job_best_practice job) sj)
               (map fst jobs) ss.
Proof.
  revert b. induction jobs as [|[job_name job_def] jobs IH]; intros b H; simpl in H.
  - injection H as <-. exists []. simpl. rewrite app_nil_r. auto.
  - unbind. ok_inv. destruct (IH _ H) as (ss & E & W & S & F).
    match type of H with for_each _ _ ?bb = Ok _ =>
      assert (K : exists s0, bb = mk_buckets (errors b) (warnings b) (suggestions b ++ s0)
                  /\ length s0 <= 3 /\ Forall (job_best_practice job_name) s0);
      [|destruct K as (s0 & K & L0 & F0); rewrite K in E, W, S; simpl in E, W, S]
    end.
    { exists ((if py_truthy a1 then [] else [NoFailureNotification job_name])
              ++ (if a2 then [] else [NoTimeout job_name])
              ++ (if a3 then [] else [NoRetryOnTimeout job_name])).
      destruct a3, a2, (py_truthy a1); destruct b; unfold add_suggestion; simpl;
        rewrite ?app_nil_r, <- ?app_assoc; repeat split; simpl; auto; repeat constructor. }
    exists (s0 :: ss). rewrite E, W, S. simpl. rewrite app_assoc. repeat split; auto.
Qed.

(** [check_best_practices] only suggests: for each job, in order, at most
    three best-practice findings, all naming that job. *)
Theorem best_practices_suggestions jc f b b' :
  check_best_practices jc f b = Ok b' ->
  exists jobs ss, jobs_of jc = Ok jobs
    /\ errors b' = errors b /\ warnings b' = warnings b
    /\ suggestions b' = suggestions b ++ concat ss
    /\ Forall2 (fun job sj => length sj <= 3 /\ Forall (job_best_practice job) sj)
               (map fst jobs) ss.
Proof.
  unfold check_best_practices. intros H. unbind. exists a.
  destruct (best_practices_loop a b b' H) as (ss & K). exists ss. split; [exact Ha | exact K].
Qed.

Lemma secret_scan_errors ws txt f b :
  exists e, fold_left (fun b w => if secret_search w txt
                                  then add_error b (HardcodedSecret f) else b) ws b
            = mk_buckets (errors b ++ e) (warnings b) (suggestions b)
         /\ length e <= length ws /\ Forall (eq (HardcodedSecret f)) e.
Proof.
  revert b. induction ws as [|w ws IH]; intro b; simpl.
  - exists []. rewrite app_nil_r. destruct b; auto.
  - destruct (secret_search w txt).
    + destruct (IH (add_error b (HardcodedSecret f))) as (e & -> & L & F).
      exists (HardcodedSecret f :: e). simpl. rewrite <- app_assoc. repeat split; auto; lia.
    + destruct (IH b) as (e & -> & L & F). exists e. repeat split; auto; lia.
Qed.

Lemma security_adds jc f b b' :
  check_security_compliance jc f b = Ok b' ->
  exists e w, errors b' = errors b ++ e /\ warnings b' = warnings b ++ w
    /\ suggestions b' = suggestions b
    /\ length e <= 4 /\ Forall (eq (HardcodedSecret f)) e /\ Forall security_warning w.
Proof.
  unfold check_security_compliance. intros H.
  destruct (secret_scan_errors security_patterns (list_ascii_of_string (yaml_dump jc)) f b)
    as (e & Hscan & L & F).
  rewrite Hscan in H. clear Hscan. unbind.
  assert (A : adds no_finding security_warning no_finding
                (mk_buckets (errors b ++ e) (warnings b) (suggestions b)) b').
  { eapply for_each_adds; [|exact H]. intros [job_name job_def] b1 b2 H1. unbind.
    eapply adds_trans; [eapply for_each_adds; [|exact Ha2]|].
    - intros task b3 b4 H2. unbind; ok_inv; adds_solve.
    - ok_inv. adds_solve. }
  destruct A as (e' & w & s & E & W & S & Fe & Fw & Fs). simpl in E, W, S.
  destruct e' as [|x e']; [|inversion Fe; contradiction].
  destruct s as [|x s]; [|inversion Fs; contradiction].
  exists e, w. rewrite E, W, S, !app_nil_r. repeat split; auto.
Qed.

(** [check_security_compliance] adds at most four hardcoded-secret errors for
    the file and only security warnings. *)
Theorem security_findings jc f b b' :
  check_security_compliance jc f b = Ok b' ->
  exists e w, errors b' = errors b ++ e /\ warnings b' = warnings b ++ w
    /\ suggestions b' = suggestions b
    /\ length e <= 4 /\ Forall (eq (HardcodedSecret f)) e /\ Forall security_warning w.
Proof. apply security_adds. Qed.
Lemma missing_tags_finding job f keys :
  missing_tags keys <> [] -> tags_finding f (MissingRequiredTags job f (missing_tags keys)).
Proof.
  intros Hne. simpl. repeat split; auto.
  - apply NoDup_filter. unfold required_tags.
    repeat constructor; simpl; intuition discriminate.
  - intros x Hx. unfold missing_tags in Hx. apply filter_In in Hx. tauto.
Qed.

Lemma required_tags_loop_errors n f jobs t b t' b' :
  required_tags_loop n f jobs t b = Ok (t', b') ->
  exists e, errors b' = errors b ++ e /\ warnings b' = warnings b
    /\ suggestions b' = suggestions b /\ Forall (tags_finding f) e /\ length e <= n.
Proof.
  revert jobs t b. induction n as [|n IH]; intros jobs t b H; simpl in H.
  - injection H as _ <-. exists []. rewrite app_nil_r. auto.
  - destruct jobs as [|[job_name job_def] rest].
    + injection H as _ <-. exists []. rewrite app_nil_r. repeat split; auto. simpl; lia.
    + unbind. destruct (IH _ _ _ H) as (e & E & W & S & F & L).
      match type of H with context [missing_tags ?k] => destruct (missing_tags k) as [|m ms] eqn:Em end.
      * exists e. repeat split; auto.
      * exists (MissingRequiredTags job_name f (m :: ms) :: e).
        rewrite E, W, S. simpl. rewrite <- app_assoc. repeat split; auto.
        -- constructor; auto. rewrite <- Em. apply missing_tags_finding. congruence.
        -- simpl. lia.
Qed.

Lemma required_tags_adds jc f b t' b' :
  check_required_tags jc f b = Ok (t', b') -> adds (tags_finding f) no_finding no_finding b b'.
Proof.
  unfold check_required_tags. intros H. unbind.
  destruct (required_tags_loop_errors _ _ _ _ _ _ _ H) as (e & E & W & S & F & _).
  exists e, [], []. rewrite E, W, S, !app_nil_r. repeat split; auto.
Qed.

Lemma merge_names n p t cl tree rest t' tree' rest' :
  merge_cluster_tags n p t cl tree rest = Ok (t', tree', rest') -> map fst rest' = map fst rest.
Proof.
  revert t cl tree rest. induction n as [|n IH]; intros t cl tree rest H; simpl in H.
  - injection H as _ _ <-. reflexivity.
  - destruct cl as [|x cl]; [injection H as _ _ <-; reflexivity|].
    unbind; rewrite (IH _ _ _ _ H); try reflexivity.
    unfold set_dict_entries. rewrite map_map. reflexivity.
Qed.

Lemma required_tags_loop_per_job n f jobs t b t' b' :
  length jobs = n ->
  required_tags_loop n f jobs t b = Ok (t', b') ->
  exists es, errors b' = errors b ++ concat es /\ warnings b' = warnings b
    /\ suggestions b' = suggestions b
    /\ Forall2 (fun job ej => length ej <= 1 /\ Forall (job_tags_error f job) ej)
               (map fst jobs) es.
Proof.
  revert jobs t b. induction n as [|n IH]; intros jobs t b Hl H; simpl in H.
  - destruct jobs; [|discriminate]. injection H as _ <-. exists []. simpl.
    rewrite app_nil_r. auto.
  - destruct jobs as [|[job_name job_def] rest]; [discriminate|]. simpl in Hl.
    injection Hl as Hl. unbind.
    match goal with
    | Hm : merge_cluster_tags _ _ _ _ _ _ = Ok (_, _, ?r') |- _ =>
        pose proof (merge_names _ _ _ _ _ _ _ _ _ Hm) as Hn;
        assert (Hl' : length r' = n) by (rewrite <- Hl, <- (length_map fst r'), Hn, length_map;
                                          reflexivity)
    end.
    destruct (IH _ _ _ Hl' H) as (es & E & W & S & F). rewrite Hn in F.
    match type of E with context [missing_tags ?k] => destruct (missing_tags k) as [|m ms] eqn:Em end.
    + exists ([] :: es). rewrite E. simpl. repeat split; auto.
    + exists ([MissingRequiredTags job_name f (m :: ms)] :: es).
      rewrite E, W, S. simpl. rewrite <- app_assoc. repeat split; auto.
      constructor; [|exact F]. split; [simpl; lia|]. constructor; [|constructor].
      split; [|reflexivity]. rewrite <- Em. apply missing_tags_finding. congruence.
Qed.

(** [check_required_tags] only adds errors: for each job, in order, at most
    one missing-tags error, naming that job and the file and listing a
    non-empty, duplicate-free subset of the required tags. *)
Theorem required_tags_errors jc f b t' b' :
  check_required_tags jc f b = Ok (t', b') ->
  exists jobs es, jobs_of jc = Ok jobs
    /\ errors b' = errors b ++ concat es /\ warnings b' = warnings b
    /\ suggestions b' = suggestions b
    /\ Forall2 (fun job ej => length ej <= 1 /\ Forall (job_tags_error f job) ej)
               (map fst jobs) es.
Proof.
  unfold check_required_tags. intros H. unbind. exists a.
  destruct (required_tags_loop_per_job _ _ _ _ _ _ _ eq_refl H) as (es & K).
  exists es. split; [exact Ha | exact K].
Qed.

Lemma for_each_split {A} (l1 l2 : list A) x (body : A -> buckets -> Exc buckets) b b' :
  for_each (l1 ++ x :: l2) body b = Ok b' ->
  exists b1 b2, body x b1 = Ok b2 /\ for_each l2 body b2 = Ok b'.
Proof.
  revert b. induction l1 as [|y l1 IH]; intros b H; simpl in H; unbind; eauto.
Qed.

Theorem unloadable_job_file_fails so bp bl jfs jf e strict :
  In jf jfs -> jf_load jf = LoadError e ->
  exit_code strict (validate so bp bl jfs) = 1%Z.
Proof.
  intros Hin Hl. unfold validate.
  destruct (validate_environment_consistency so bp bl empty_buckets) as [b0|] eqn:E0;
    simpl; [|reflexivity].
  destruct (for_each jfs validate_job_file b0) as [b|] eqn:E; [|reflexivity].
  apply in_split in Hin. destruct Hin as (l1 & l2 & ->).
  destruct (for_each_split _ _ _ _ _ _ E) as (b1 & b2 & H1 & H2).
  unfold validate_job_file, load_yaml in H1. rewrite Hl in H1. simpl in H1. injection H1 as <-.
  destruct (validate_files_grows _ _ _ H2) as [l El]. simpl in El.
  simpl. unfold validate_ok. rewrite El, !length_app. simpl.
  replace (Nat.eqb _ 0) with false by (symmetry; apply Nat.eqb_neq; lia). reflexivity.
Qed.

Lemma check_object_errors f t : Forall error_kind (check_object f t EmptyString).
Proof.
  rewrite check_object_entries. apply Forall_flat_map. apply Forall_forall.
  intros [[p k] v] _. unfold Paths.violation_at.
  destruct (mem k Paths.sensitive_set); [|constructor].
  destruct v; try constructor. destruct (String.prefix "${" s); repeat constructor.
Qed.

Lemma adds_all b b' :
  adds error_kind warning_kind suggestion_kind b b' ->
  Forall error_kind (errors b) -> Forall warning_kind (warnings b) ->
  Forall suggestion_kind (suggestions b) ->
  Forall error_kind (errors b') /\ Forall warning_kind (warnings b')
  /\ Forall suggestion_kind (suggestions b').
Proof.
  intros (e & w & s & -> & -> & -> & Fe & Fw & Fs) He Hw Hs.
  repeat split; apply Forall_app; auto.
Qed.

Lemma run_checks_kinds jc f b t' b' :
  run_checks jc f b = Ok (t', b') -> adds error_kind warning_kind suggestion_kind b b'.
Proof.
  unfold run_checks. intros H. unbind. ok_inv.
  eapply adds_trans with (b2 := check_variable_usage_policy jc f b).
  { exists (check_object f jc EmptyString), [], []. simpl. rewrite !app_nil_r.
    repeat split; auto using check_object_errors. }
  eapply adds_trans; [eapply adds_mono, naming_adds; eauto;
                      unfold no_finding, warning_kind; tauto|].
  eapply adds_trans; [eapply adds_mono, required_tags_adds; eauto;
                      [intros [] Hf; simpl in Hf |- *; tauto | unfold no_finding; tauto..]|].
  eapply adds_trans.
  { destruct (security_adds _ _ _ _ Ha1) as (e & w & E & W & S & _ & Fe & Fw).
    exists e, w, []. rewrite E, W, S, !app_nil_r. repeat split; auto.
    - eapply Forall_impl; [|exact Fe]. intros ? <-. exact I.
    - eapply Forall_impl; [|exact Fw]. unfold warning_kind; tauto. }
  eapply adds_trans; [eapply adds_mono, cost_adds; eauto;
                      unfold no_finding, suggestion_kind; tauto|].
  eapply adds_mono, best_practices_adds; eauto; unfold no_finding, suggestion_kind; tauto.
Qed.

Lemma validate_job_file_kinds jf b b' :
  validate_job_file jf b = Ok b' -> adds error_kind warning_kind suggestion_kind b b'.
Proof.
  unfold validate_job_file, load_yaml. destruct jf as [p r [v|e]]; simpl; intros H.
  - destruct (py_truthy v) eqn:T; simpl in H.
    + rewrite T in H. simpl in H. unbind. ok_inv. eapply run_checks_kinds; eassumption.
    + ok_inv. apply adds_refl.
  - ok_inv. apply adds_error. exact I.
Qed.

Lemma extract_kinds bp ld b envs b1 :
  extract_environment_variables bp ld b = Ok (envs, b1) ->
  adds error_kind warning_kind suggestion_kind b b1.
Proof.
  unfold extract_environment_variables.
  assert (L : adds error_kind warning_kind suggestion_kind b (snd (load_yaml bp ld b))).
  { unfold load_yaml. destruct ld; [apply adds_refl | apply adds_error; exact I]. }
  destruct (load_yaml bp ld b) as [config b0]. simpl in L. intros H.
  destruct (py_truthy config); simpl in H; unbind; ok_inv; exact L.
Qed.

Lemma consistency_kinds so bp ld b b' :
  validate_environment_consistency so bp ld b = Ok b' ->
  adds error_kind warning_kind suggestion_kind b b'.
Proof.
  unfold validate_environment_consistency. intros H.
  destruct (extract_environment_variables bp ld b) as [[envs b1]|] eqn:E; simpl in H;
    [|discriminate].
  eapply adds_trans; [eapply extract_kinds; exact E|].
  destruct (Nat.ltb _ 2); simpl in H; unbind; ok_inv; [apply adds_refl|].
  eapply for_each_adds; [|exact H]. intros var b2 b3 H3. unbind. ok_inv.
  adds_solve. unfold warning_kind; tauto.
Qed.

Theorem validate_severities so bp bl jfs b :
  validate so bp bl jfs = Ok b ->
  Forall error_kind (errors b) /\ Forall warning_kind (warnings b)
  /\ Forall suggestion_kind (suggestions b).
Proof.
  unfold validate. intros H. unbind.
  apply (adds_all empty_buckets); [|constructor..].
  eapply adds_trans; [eapply consistency_kinds; eassumption|].
  eapply for_each_adds; [|exact H]. apply validate_job_file_kinds.
Qed.

Theorem empty_job_files_ignored so bp bl jfs :
  validate so bp bl jfs
  = validate so bp bl (filter (fun jf => match jf_load jf with
                                         | Loaded v => py_truthy v
                                         | LoadError _ => true
                                         end) jfs).
Proof.
  unfold validate. destruct (validate_environment_consistency so bp bl empty_buckets) as [b|];
    simpl; [|reflexivity].
  revert b. induction jfs as [|jf jfs IH]; intro b; simpl; [reflexivity|].
  destruct jf as [p r [v|e]]; simpl.
  - unfold validate_job_file, load_yaml. simpl.
    destruct (py_truthy v) eqn:T; simpl.
    + rewrite T. simpl. destruct (run_checks v r b) as [[t b1]|]; simpl; rewrite ?T; simpl;
        [apply IH | reflexivity].
    + apply IH.
  - apply IH.
Qed.











Lemma dict_get_set d k v k' :
  dict_get (dict_set d k v) k' = if String.eqb k' k then Some v else dict_get d k'.
Proof.
  induction d as [|[k0 v0] d IH]; simpl.
  - destruct (String.eqb k' k); reflexivity.
  - destruct (String.eqb_spec k k0) as [->|Hne]; simpl.
    + destruct (String.eqb k' k0); reflexivity.
    + rewrite IH. destruct (String.eqb_spec k' k0) as [->|]; [|reflexivity].
      destruct (String.eqb_spec k0 k); [congruence | reflexivity].
Qed.

Lemma dict_get_app d1 d2 k :
  dict_get (d1 ++ d2) k = match dict_get d1 k with Some v => Some v | None => dict_get d2 k end.
Proof.
  induction d1 as [|[k0 v0] d1 IH]; simpl; [reflexivity|].
  destruct (String.eqb k k0); [reflexivity | exact IH].
Qed.

Lemma dict_get_update d e k :
  dict_get (dict_update d e) k
  = match dict_get (rev e) k with Some v => Some v | None => dict_get d k end.
Proof.
  unfold dict_update. revert d. induction e as [|[k0 v0] e IH]; intro d; simpl; [reflexivity|].
  rewrite IH, dict_get_app, dict_get_set. simpl.
  destruct (dict_get (rev e) k); [reflexivity|]. now destruct (String.eqb k k0).
Qed.

Lemma dict_get_In d k v : dict_get d k = Some v -> In (k, v) d.
Proof.
  induction d as [|[k0 v0] d IH]; simpl; [discriminate|].
  destruct (String.eqb_spec k k0) as [->|]; [injection 1 as <-; now left | intro H; right; auto].
Qed.

Lemma In_dict_get d k v : NoDup (dict_keys d) -> In (k, v) d -> dict_get d k = Some v.
Proof.
  induction d as [|[k0 v0] d IH]; simpl; [intros _ []|].
  intros Hnd [E|Hin]; inversion Hnd as [|? ? Hk Hnd']; subst.
  - inversion E; subst. now rewrite String.eqb_refl.
  - destruct (String.eqb_spec k k0) as [->|]; [|auto].
    exfalso. apply Hk. apply (in_map fst) in Hin. exact Hin.
Qed.

Lemma dict_get_rev d k : NoDup (dict_keys d) -> dict_get (rev d) k = dict_get d k.
Proof.
  intros Hnd.
  assert (Hnd' : NoDup (dict_keys (rev d))) by (unfold dict_keys; rewrite map_rev; now apply NoDup_rev).
  destruct (dict_get d k) as [v|] eqn:E.
  - apply In_dict_get; [exact Hnd'|]. apply in_rev. rewrite rev_involutive. now apply dict_get_In.
  - destruct (dict_get (rev d) k) as [v|] eqn:E'; [|reflexivity].
    apply dict_get_In, in_rev, (In_dict_get _ _ _ Hnd) in E'. congruence.
Qed.

Lemma keys_dict_set d k v :
  dict_keys (dict_set d k v)
  = if mem k (dict_keys d) then dict_keys d else dict_keys d ++ [k].
Proof.
  induction d as [|[k0 v0] d IH]; simpl; [reflexivity|].
  unfold mem in *. simpl. rewrite String.eqb_sym.
  destruct (String.eqb_spec k0 k) as [->|]; simpl; [reflexivity|].
  rewrite IH. destruct (existsb (String.eqb k) (dict_keys d)); reflexivity.
Qed.

Lemma keys_update d e :
  NoDup (dict_keys e) ->
  dict_keys (dict_update d e)
  = dict_keys d ++ filter (fun k => negb (mem k (dict_keys d))) (dict_keys e).
Proof.
  unfold dict_update. revert d. induction e as [|[k v] e IH]; intros d Hnd; simpl.
  - now rewrite app_nil_r.
  - inversion Hnd as [|? ? Hk Hnd']; subst. rewrite IH by exact Hnd'. simpl.
    rewrite keys_dict_set. destruct (mem k (dict_keys d)) eqn:Em; simpl; [reflexivity|].
    rewrite <- app_assoc. f_equal. simpl. f_equal.
    apply filter_ext_in. intros x Hx. unfold mem. rewrite existsb_app. simpl.
    destruct (String.eqb_spec x k) as [->|]; [contradiction|]. now rewrite orb_false_r.
Qed.

Theorem py_merge_target_overrides gi gd ti td m :
  NoDup (dict_keys gd) -> NoDup (dict_keys td) ->
  py_merge (YMap gi gd) (YMap ti td) = Ok m ->
  (forall k, dict_get m k = match dict_get td k with Some v => Some v | None => dict_get gd k end)
  /\ dict_keys m = dict_keys gd ++ filter (fun k => negb (mem k (dict_keys gd))) (dict_keys td).
Proof.
  intros Hg Ht H. simpl in H. injection H as <-. split.
  - intro k. rewrite !dict_get_update, !dict_get_rev by assumption. simpl.
    now destruct (dict_get gd k).
  - rewrite keys_update, keys_update by assumption. simpl.
    assert (F : forall l : list string, filter (fun _ => true) l = l) by (induction l; simpl; congruence).
    now rewrite F.
Qed.

Section Targets.
Variable g : yval.

Lemma targets_fold items acc r :
  NoDup (dict_keys items) ->
  (forall k, In k (dict_keys items) -> ~ In k (dict_keys acc)) ->
  fold_exc (fun (env : list (string * yval)) (target : string * yval) =>
              let (target_name, target_config) := target in
              target_variables <- py_get target_config "variables" fresh_dict ;;
              merged <- py_merge g target_variables ;;
              Ok (dict_set env target_name (YMap 0 merged)))
           items acc = Ok r ->
  dict_keys r = dict_keys acc ++ dict_keys items
  /\ (forall k, ~ In k (dict_keys items) -> dict_get r k = dict_get acc k)
  /\ (forall name tc, In (name, tc) items ->
        exists tv m, py_get tc "variables" fresh_dict = Ok tv
          /\ py_merge g tv = Ok m /\ dict_get r name = Some (YMap 0 m)).
Proof.
  revert acc. induction items as [|[name tc] items IH]; intros acc Hnd Hdis H; simpl in H.
  - injection H as <-. rewrite app_nil_r. split; [reflexivity | split; [reflexivity | intros ? ? []]].
  - unbind. ok_inv.
    inversion Hnd as [|? ? Hk Hnd']; subst.
    assert (Hm : mem name (dict_keys acc) = false).
    { destruct (mem name (dict_keys acc)) eqn:E; [|reflexivity].
      apply mem_In in E. exfalso. apply (Hdis name); [now left | exact E]. }
    assert (Hdis' : forall k, In k (dict_keys items) ->
                    ~ In k (dict_keys (dict_set acc name (YMap 0 a1)))).
    { intros k Hk' Hin. rewrite keys_dict_set, Hm in Hin.
      apply in_app_or in Hin. destruct Hin as [Hin|[<-|[]]].
      - apply (Hdis k); [now right | exact Hin].
      - exact (Hk Hk'). }
    destruct (IH _ Hnd' Hdis' H) as (K & G & F).
    split; [|split].
    + rewrite K, keys_dict_set, Hm, <- app_assoc. reflexivity.
    + intros k Hk'. rewrite G by (intro; apply Hk'; now right).
      rewrite dict_get_set. destruct (String.eqb_spec k name) as [->|]; [|reflexivity].
      exfalso. apply Hk'. now left.
    + intros n t [E|Hin].
      * inversion E; subst. exists a0, a1. repeat split; auto.
        rewrite G by exact Hk. rewrite dict_get_set, String.eqb_refl. reflexivity.
      * exact (F n t Hin).
Qed.
End Targets.

Theorem target_environments bp ci cd b envs b' ti targets :
  dict_get cd "targets" = Some (YMap ti targets) ->
  targets <> [] -> NoDup (dict_keys targets) ->
  extract_environment_variables bp (Loaded (YMap ci cd)) b = Ok (envs, b') ->
  dict_keys envs = dict_keys targets
  /\ forall name tc, In (name, tc) targets ->
       exists tv m, py_get tc "variables" fresh_dict = Ok tv
         /\ py_merge (match dict_get cd "variables" with Some v => v | None => fresh_dict end) tv
            = Ok m
         /\ dict_get envs name = Some (YMap 0 m).
Proof.
  intros Ht Hne Hnd H.
  assert (T : Nat.eqb (length cd) 0 = false).
  { destruct cd; [discriminate | reflexivity]. }
  unfold extract_environment_variables, load_yaml in H.
  assert (T' : py_truthy (YMap ci cd) = true) by (simpl; now rewrite T).
  rewrite T' in H. cbv beta iota zeta in H. rewrite T' in H. cbn [negb] in H.
  unfold py_get at 2 in H. rewrite Ht in H. cbn [py_items bind] in H.
  unbind. simpl in Ha. injection Ha as <-.
  set (g := match dict_get cd "variables" with Some v => v | None => fresh_dict end) in *.
  destruct (targets_fold g targets [] a0 Hnd (fun k _ H => H) Ha0) as (K & _ & F).
  simpl in K.
  assert (A : a0 <> []).
  { intros ->. apply Hne. destruct targets; [reflexivity | discriminate K]. }
  destruct a0 as [|x a']; [contradiction|]. injection H as <- <-. auto.
Qed.

Ltac run_ok :=
  match goal with
  | |- exists r, ?lhs = Ok r /\ _ =>
      let v := eval vm_compute in lhs in
      match v with Ok ?r => exists r; split; [vm_compute; reflexivity|] end
  end.

Lemma naming_only_warnings_witness :
  exists b', check_naming_conventions tagged_job_doc "resources/etl.yml" empty_buckets = Ok b'
    /\ adds no_finding naming_finding no_finding empty_buckets b'.
Proof. run_ok. apply (naming_only_warnings tagged_job_doc "resources/etl.yml" empty_buckets). vm_compute. reflexivity. Defined.

Lemma cost_only_suggestions_witness :
  exists b', check_cost_optimization schema_job_doc "resources/nightly.yml" empty_buckets = Ok b'
    /\ adds no_finding no_finding cost_finding empty_buckets b'.
Proof. run_ok. apply (cost_only_suggestions schema_job_doc "resources/nightly.yml" empty_buckets). vm_compute. reflexivity. Defined.

Lemma best_practices_suggestions_witness :
  exists b', check_best_practices tagged_job_doc "resources/etl.yml" empty_buckets = Ok b'
    /\ exists jobs ss, jobs_of tagged_job_doc = Ok jobs
         /\ errors b' = errors empty_buckets /\ warnings b' = warnings empty_buckets
         /\ suggestions b' = suggestions empty_buckets ++ concat ss
         /\ Forall2 (fun job sj => length sj <= 3 /\ Forall (job_best_practice job) sj)
                    (map fst jobs) ss.
Proof. run_ok. apply (best_practices_suggestions tagged_job_doc "resources/etl.yml" empty_buckets). vm_compute. reflexivity. Defined.

Lemma security_findings_witness :
  exists b', check_security_compliance numeric_password_doc "resources/a.yml" empty_buckets = Ok b'
    /\ exists e w, errors b' = errors empty_buckets ++ e /\ warnings b' = warnings empty_buckets ++ w
         /\ suggestions b' = suggestions empty_buckets
         /\ length e <= 4 /\ Forall (eq (HardcodedSecret "resources/a.yml")) e
         /\ Forall security_warning w.
Proof. run_ok. apply (security_findings numeric_password_doc "resources/a.yml" empty_buckets). vm_compute. reflexivity. Defined.

Lemma required_tags_errors_witness :
  exists t' b', check_required_tags schema_job_doc "resources/nightly.yml" empty_buckets = Ok (t', b')
    /\ exists jobs es, jobs_of schema_job_doc = Ok jobs
         /\ errors b' = errors empty_buckets ++ concat es /\ warnings b' = warnings empty_buckets
         /\ suggestions b' = suggestions empty_buckets
         /\ Forall2 (fun job ej => length ej <= 1
                                   /\ Forall (job_tags_error "resources/nightly.yml" job) ej)
                    (map fst jobs) es
         /\ concat es <> [].
Proof.
  match goal with
  | |- exists t b, ?lhs = Ok (t, b) /\ _ =>
      let v := eval vm_compute in lhs in
      match v with Ok (?t, ?b) => exists t, b; split; [vm_compute; reflexivity|] end
  end.
  destruct (required_tags_errors schema_job_doc "resources/nightly.yml" empty_buckets _ _
              ltac:(vm_compute; reflexivity)) as (jobs & es & J & E & W & S & F).
  exists jobs, es. repeat split; auto. intro C. rewrite C in E. vm_compute in E. discriminate E.
Defined.


Lemma validate_severities_witness :
  exists b, validate py_set_order "databricks.yml" (Loaded two_env_bundle)
              [mk_job_file "resources/nightly.yml" "resources/nightly.yml" (Loaded schema_job_doc)]
            = Ok b
    /\ Forall error_kind (errors b) /\ Forall warning_kind (warnings b)
    /\ Forall suggestion_kind (suggestions b).
Proof.
  run_ok. apply (validate_severities py_set_order "databricks.yml" (Loaded two_env_bundle)
    [mk_job_file "resources/nightly.yml" "resources/nightly.yml" (Loaded schema_job_doc)]).
  vm_compute. reflexivity.
Defined.

Lemma unloadable_job_file_fails_witness :
  In (mk_job_file "resources/bad.yml" "resources/bad.yml" (LoadError "mapping values are not allowed here"))
     [mk_job_file "resources/bad.yml" "resources/bad.yml" (LoadError "mapping values are not allowed here")]
  /\ exit_code false (validate py_set_order "databricks.yml" (Loaded two_env_bundle)
       [mk_job_file "resources/bad.yml" "resources/bad.yml" (LoadError "mapping values are not allowed here")]) = 1%Z.
Proof.
  split; [now left|].
  apply (unloadable_job_file_fails py_set_order "databricks.yml" (Loaded two_env_bundle)
    [mk_job_file "resources/bad.yml" "resources/bad.yml" (LoadError "mapping values are not allowed here")]
    (mk_job_file "resources/bad.yml" "resources/bad.yml" (LoadError "mapping values are not allowed here"))
    "mapping values are not allowed here" false); [now left | reflexivity].
Defined.

Lemma py_merge_target_overrides_witness :
  let gd := [("catalog", YStr "main"); ("schema", YStr "base")] in
  let td := [("schema", YStr "dev"); ("owner", YStr "data")] in
  NoDup (dict_keys gd) /\ NoDup (dict_keys td)
  /\ exists m, py_merge (YMap 2 gd) (YMap 3 td) = Ok m
     /\ (forall k, dict_get m k = match dict_get td k with Some v => Some v | None => dict_get gd k end)
     /\ dict_keys m = dict_keys gd ++ filter (fun k => negb (mem k (dict_keys gd))) (dict_keys td).
Proof.
  intros gd td.
  assert (Hg : NoDup (dict_keys gd)) by (vm_compute; repeat constructor; simpl; intuition discriminate).
  assert (Ht : NoDup (dict_keys td)) by (vm_compute; repeat constructor; simpl; intuition discriminate).
  split; [exact Hg|]. split; [exact Ht|].
  eexists. split; [reflexivity|].
  exact (py_merge_target_overrides 2 gd 3 td _ Hg Ht eq_refl).
Defined.

Lemma target_environments_witness :
  let targets := [("dev", YMap 5 [("variables", YMap 6 [("schema", YStr "dev")])]);
                  ("prod", YMap 7 [])] in
  let cd := [("variables", YMap 2 [("catalog", YMap 3 [("default", YStr "main")])]);
             ("targets", YMap 4 targets)] in
  exists envs b',
    extract_environment_variables "databricks.yml" (Loaded (YMap 1 cd)) empty_buckets
      = Ok (envs, b')
    /\ dict_keys envs = dict_keys targets
    /\ forall name tc, In (name, tc) targets ->
         exists tv m, py_get tc "variables" fresh_dict = Ok tv
           /\ py_merge (match dict_get cd "variables" with Some v => v | None => fresh_dict end) tv
              = Ok m
           /\ dict_get envs name = Some (YMap 0 m).
Proof.
  intros targets cd.
  match goal with
  | |- exists e b, ?lhs = Ok (e, b) /\ _ =>
      let v := eval vm_compute in lhs in
      match v with
      | Ok (?e, ?b) => exists e, b; split; [vm_compute; reflexivity|];
          apply (target_environments "databricks.yml" 1 cd empty_buckets e b 4 targets)
      end
  end.
  - reflexivity.
  - discriminate.
  - vm_compute. repeat constructor; simpl; intuition discriminate.
  - vm_compute. reflexivity.
Defined.


End Verif.

(** ** Properties of the printed report *)

Module ReportVerif.
Import Dab Report.
Open Scope list_scope.
Open Scope string_scope.

Lemma str_app_nil_r (s : string) : s ++ EmptyString = s.
Proof. induction s as [|c s IH]; simpl; congruence. Qed.

Lemma str_app_assoc (s1 s2 s3 : string) : s1 ++ (s2 ++ s3) = (s1 ++ s2) ++ s3.
Proof. induction s1 as [|c s1 IH]; simpl; congruence. Qed.

Lemma emit_app l1 l2 st : emit (l1 ++ l2)%list st = emit l2 (emit l1 st).
Proof. unfold emit. apply fold_left_app. Qed.

Lemma emit_none ms c : emit ms (c, None) = ((c ++ ms)%list, None).
Proof.
  unfold emit. revert c. induction ms as [|m ms IH]; intro c; simpl; [now rewrite app_nil_r|].
  change (write_output m None c) with ((c ++ [m])%list, @None string).
  rewrite IH, <- app_assoc. reflexivity.
Qed.

Lemma emit_some ms c x : emit ms (c, Some x) = ((c ++ ms)%list, Some (x ++ lines ms)).
Proof.
  unfold emit. revert c x. induction ms as [|m ms IH]; intros c x; cbn [fold_left lines fst snd].
  - now rewrite app_nil_r, str_app_nil_r.
  - change (write_output m (Some x) c) with ((c ++ [m])%list, Some (x ++ m ++ nl)).
    rewrite IH, <- app_assoc, <- !str_app_assoc. reflexivity.
Qed.

Lemma lines_app l1 l2 : lines (l1 ++ l2)%list = lines l1 ++ lines l2.
Proof.
  induction l1 as [|m l1 IH]; cbn [lines app]; [reflexivity|].
  rewrite IH, <- !str_app_assoc. reflexivity.
Qed.

Lemma print_results_opened pp ts f e w s :
  f <> EmptyString ->
  print_results pp ts (Some f) Opened e w s
  = (app banner (app (body e w s)
      (if Nat.eqb (length e + length w + length s) 0 then []
       else [nl ++ "Validation report saved to: " ++ f])),
     Some (report_header pp ts ++ lines (app banner (body e w s)))).
Proof.
  intros Hf. apply String.eqb_neq in Hf.
  unfold print_results, body. cbv zeta. rewrite Hf. cbn [negb].
  rewrite emit_some. cbn [app].
  destruct (Nat.eqb _ 0).
  - rewrite emit_some, lines_app, app_nil_r, str_app_assoc. reflexivity.
  - rewrite emit_some. cbn [snd fst negb]. unfold write_output. cbn [fst].
    unfold banner. rewrite !lines_app, <- !app_assoc, <- !str_app_assoc. reflexivity.
Qed.

Lemma print_results_failed pp ts f err e w s :
  f <> EmptyString ->
  print_results pp ts (Some f) (OpenFailed err) e w s
  = (("Warning: Could not create output file '" ++ f ++ "': " ++ err)
       :: app banner (body e w s), None).
Proof.
  intros Hf. apply String.eqb_neq in Hf.
  unfold print_results, body. cbv zeta. rewrite Hf. cbn [negb].
  rewrite emit_none. cbn [app].
  destruct (Nat.eqb _ 0); rewrite emit_none; cbn [snd];
    unfold banner; rewrite <- ?app_assoc; reflexivity.
Qed.

Lemma print_results_no_file pp ts out op e w s :
  match out with Some f => f = EmptyString | None => True end ->
  print_results pp ts out op e w s = (app banner (body e w s), None).
Proof.
  intros Hout. destruct out as [f|]; [subst f|];
    unfold print_results, body; cbv zeta; cbn [negb String.eqb];
    rewrite emit_none; cbn [app];
    destruct (Nat.eqb _ 0); rewrite emit_none; reflexivity.
Qed.

Lemma print_results_body pp ts out op e w s x :
  In x (body e w s) -> In x (fst (print_results pp ts out op e w s)).
Proof.
  intros Hx.
  destruct out as [f|].
  - destruct (String.eqb_spec f EmptyString) as [Hf|Hf].
    + rewrite print_results_no_file by exact Hf. cbn [fst]. apply in_or_app. now right.
    + destruct op as [|err].
      * rewrite print_results_opened by exact Hf. cbn [fst]. apply in_or_app. right.
        apply in_or_app. now left.
      * rewrite print_results_failed by exact Hf. cbn [fst]. right. apply in_or_app. now right.
  - rewrite print_results_no_file by exact I. cbn [fst]. apply in_or_app. now right.
Qed.

Lemma numbered_nth i l k m :
  nth_error l k = Some m -> In (fmt2d (i + k) ++ ". " ++ m) (numbered i l).
Proof.
  revert i k. induction l as [|x l IH]; intros i k H; [destruct k; discriminate|].
  destruct k as [|k]; simpl in H.
  - injection H as <-. simpl. left. now rewrite Nat.add_0_r.
  - simpl. right. replace (i + S k) with (S i + k) by lia. now apply IH.
Qed.

Lemma section_nth h n l k m :
  nth_error l k = Some m -> In (fmt2d (S k) ++ ". " ++ m) (section h n l).
Proof.
  intros H. destruct l as [|x l']; [destruct k; discriminate|].
  unfold section. right. right. apply (numbered_nth 1 (x :: l') k m H).
Qed.

Lemma summary_printed pp ts out op e w s :
  Nat.eqb (length e + length w + length s) 0 = false ->
  In (summary_line e w s) (fst (print_results pp ts out op e w s)).
Proof.
  intros Hne. apply print_results_body. unfold body. rewrite Hne.
  apply in_or_app. right. apply in_or_app. right. apply in_or_app. right.
  unfold footer. right. now left.
Qed.

Theorem report_lists_findings pp ts out op e w s k m :
  nth_error e k = Some m \/ nth_error w k = Some m \/ nth_error s k = Some m ->
  In (fmt2d (S k) ++ ". " ++ m) (fst (print_results pp ts out op e w s))
  /\ In (summary_line e w s) (fst (print_results pp ts out op e w s)).
Proof.
  intros H.
  assert (Hne : Nat.eqb (length e + length w + length s) 0 = false).
  { apply Nat.eqb_neq.
    destruct H as [H|[H|H]];
      (assert (L : k < length e \/ k < length w \/ k < length s)
         by (first [left; apply nth_error_Some; congruence
                   | right; left; apply nth_error_Some; congruence
                   | right; right; apply nth_error_Some; congruence]));
      lia. }
  split; [apply print_results_body; unfold body; rewrite Hne | now apply summary_printed].
  destruct H as [H|[H|H]]; apply in_or_app.
  - left. eapply section_nth; eauto.
  - right. apply in_or_app. left. eapply section_nth; eauto.
  - right. apply in_or_app. right. apply in_or_app. left. eapply section_nth; eauto.
Qed.

Theorem report_file_mirrors_console pp ts f e w s :
  f <> EmptyString ->
  exists shown,
    fst (print_results pp ts (Some f) Opened e w s)
    = app shown (if Nat.eqb (length e + length w + length s) 0 then []
                 else [nl ++ "Validation report saved to: " ++ f])
    /\ snd (print_results pp ts (Some f) Opened e w s)
       = Some (report_header pp ts ++ lines shown).
Proof.
  intros Hf. rewrite print_results_opened by exact Hf. cbn [fst snd].
  exists (app banner (body e w s)). rewrite app_assoc. auto.
Qed.

Theorem report_open_failure pp ts f err e w s :
  f <> EmptyString ->
  print_results pp ts (Some f) (OpenFailed err) e w s
  = (("Warning: Could not create output file '" ++ f ++ "': " ++ err)
       :: fst (print_results pp ts None Opened e w s), None).
Proof.
  intros Hf. rewrite print_results_failed, print_results_no_file by easy. reflexivity.
Qed.

Theorem report_summary_iff pp ts out op e w s :
  In (summary_line e w s) (fst (print_results pp ts out op e w s))
  <-> app e (app w s) <> [].
Proof.
  split.
  - intros Hin Hnil. apply app_eq_nil in Hnil. destruct Hnil as [-> Hnil].
    apply app_eq_nil in Hnil. destruct Hnil as [-> ->].
    destruct out as [f|].
    + destruct (String.eqb_spec f EmptyString) as [Hf|Hf].
      * rewrite print_results_no_file in Hin by exact Hf. simpl in Hin.
        intuition discriminate.
      * destruct op as [|err].
        -- rewrite print_results_opened in Hin by exact Hf. simpl in Hin.
           intuition discriminate.
        -- rewrite print_results_failed in Hin by exact Hf. simpl in Hin.
           intuition discriminate.
    + rewrite print_results_no_file in Hin by exact I. simpl in Hin. intuition discriminate.
  - intros Hne. apply summary_printed. apply Nat.eqb_neq. intro Z.
    apply Hne. destruct e, w, s; simpl in *; try lia; reflexivity.
Qed.

Lemma report_lists_findings_witness :
  nth_error ["Policy violation: a"; "Policy violation: b"] 1 = Some "Policy violation: b"
  /\ In (fmt2d 2 ++ ". " ++ "Policy violation: b")
        (fst (print_results "." "2024-01-01 00:00:00" (Some "report.txt") Opened
                ["Policy violation: a"; "Policy violation: b"] [] ["Best practice: c"]))
  /\ In (summary_line ["Policy violation: a"; "Policy violation: b"] [] ["Best practice: c"])
        (fst (print_results "." "2024-01-01 00:00:00" (Some "report.txt") Opened
                ["Policy violation: a"; "Policy violation: b"] [] ["Best practice: c"])).
Proof.
  split; [reflexivity|].
  apply (report_lists_findings "." "2024-01-01 00:00:00" (Some "report.txt") Opened
           ["Policy violation: a"; "Policy violation: b"] [] ["Best practice: c"] 1
           "Policy violation: b").
  left. reflexivity.
Defined.

Lemma report_file_mirrors_console_witness :
  "report.txt" <> EmptyString /\
  exists shown,
    fst (print_results "." "2024-01-01 00:00:00" (Some "report.txt") Opened ["e"] ["w"] [])
    = app shown (if Nat.eqb (length ["e"] + length ["w"] + length (@nil string)) 0 then []
                 else [nl ++ "Validation report saved to: " ++ "report.txt"])
    /\ snd (print_results "." "2024-01-01 00:00:00" (Some "report.txt") Opened ["e"] ["w"] [])
       = Some (report_header "." "2024-01-01 00:00:00" ++ lines shown).
Proof.
  split; [discriminate|].
  apply (report_file_mirrors_console "." "2024-01-01 00:00:00" "report.txt" ["e"] ["w"] []).
  discriminate.
Defined.

Lemma report_open_failure_witness :
  "/no/such/dir/report.txt" <> EmptyString /\
  print_results "." "2024-01-01 00:00:00" (Some "/no/such/dir/report.txt")
    (OpenFailed "[Errno 2] No such file or directory") ["e"] [] []
  = (("Warning: Could not create output file '" ++ "/no/such/dir/report.txt" ++ "': "
      ++ "[Errno 2] No such file or directory")
       :: fst (print_results "." "2024-01-01 00:00:00" None Opened ["e"] [] []), None).
Proof.
  split; [discriminate|].
  apply (report_open_failure "." "2024-01-01 00:00:00" "/no/such/dir/report.txt"
           "[Errno 2] No such file or directory" ["e"] [] []).
  discriminate.
Defined.


End ReportVerif.
